(** * Delayed Mirror: the offline cache worker (sw.js) and the frame ring buffer

    A shallow embedding of the service worker of the Delayed Mirror PWA and of
    the frame delay buffer its documentation describes.

    - [Promise]   settled promises and the tasks that produce them
                  (state passing, with rejection as the error channel);
    - [Platform]  the browser objects sw.js talks to: requests, responses,
                  the CacheStorage, the console, the network;
    - [SW]        the event listeners of sw.js, one definition per listener;
    - [Ring]      the frame ring buffer;
    - [Samples]   concrete worlds, networks and requests;
    - [Lifecycle] the sync and push listeners, events and runs of events;
    - [StorageFacts], [ActivateFacts], [FetchFacts], [GuardFacts],
      [MessageFacts], [InstallFacts], [RingFacts], [StorageMore],
      [InstallMore], [ActivateMore], [FetchMore], [LifecycleFacts],
      [OfflineFacts]: what is proved. *)

From Stdlib Require Import String Ascii ZArith List Lia.
From stdpp Require Import gmap strings list fin_maps pretty.

Local Open Scope string_scope.

(* ===================================================================== *)
(** ** Promises                                                           *)
(* ===================================================================== *)

Module Promise.

(** How a promise ends. A rejection carries the text of its reason. *)
Inductive Settled (A : Type) : Type :=
| Fulfilled (a : A)
| Rejected (reason : string).
Arguments Fulfilled {A} a.
Arguments Rejected {A} reason.

Definition is_rejected {A} (p : Settled A) : bool :=
  match p with Rejected _ => true | Fulfilled _ => false end.

Section Task.
Context {S : Type}.

(** A promise-returning computation over the worker's state [S]. *)
Definition Task (A : Type) : Type := S -> Settled A * S.

Definition resolve {A} (a : A) : Task A := fun s => (Fulfilled a, s).
Definition reject {A} (e : string) : Task A := fun s => (Rejected e, s).

(** [p.then(f)]: [f] runs on fulfilment, a rejection passes through. *)
Definition then_ {A B} (p : Task A) (f : A -> Task B) : Task B :=
  fun s =>
    match p s with
    | (Fulfilled a, s') => f a s'
    | (Rejected e, s') => (Rejected e, s')
    end.

(** [p.catch(h)]: [h] runs on rejection and its outcome replaces it. *)
Definition catch_ {A} (p : Task A) (h : string -> Task A) : Task A :=
  fun s =>
    match p s with
    | (Fulfilled a, s') => (Fulfilled a, s')
    | (Rejected e, s') => h e s'
    end.

(** A promise chain nobody returns or awaits: its effects happen, its
    outcome is dropped. *)
Definition detached {A} (p : Task A) : Task unit :=
  fun s => (Fulfilled tt, snd (p s)).

(** [Promise.all(ps)] over promises created in list order: every one of
    them runs, the first rejection (if any) is the outcome. *)
Fixpoint all {A} (ps : list (Task A)) : Task (list A) :=
  match ps with
  | [] => resolve []
  | p :: ps' =>
      fun s =>
        match p s with
        | (Fulfilled a, s') =>
            match all ps' s' with
            | (Fulfilled l, s'') => (Fulfilled (a :: l), s'')
            | (Rejected e, s'') => (Rejected e, s'')
            end
        | (Rejected e, s') => (Rejected e, snd (all ps' s'))
        end
  end.
End Task.

Arguments Task S A : clear implicits.

Declare Scope task_scope.
Delimit Scope task_scope with task.
Notation "x <- p ;; k" := (then_ p (fun x => k))
  (at level 100, p at next level, right associativity) : task_scope.
Notation "p ;; k" := (then_ p (fun _ => k))
  (at level 100, right associativity) : task_scope.

End Promise.

Import Promise.
Local Open Scope task_scope.

(* ===================================================================== *)
(** ** The browser platform                                               *)
(* ===================================================================== *)

Module Platform.

Record Request := mkRequest {
  method : string;
  url : string;
  mode : string
}.

(** A response; [vary] holds the field names of its Vary header, none when
    it has no such header. *)
Record Response := mkResponse {
  status : nat;
  statusText : string;
  type : string;
  body : string;
  vary : list string
}.

(** [response.clone()]: a second response with the same contents. *)
Definition clone (r : Response) : Response :=
  {| status := status r; statusText := statusText r;
     type := type r; body := body r; vary := vary r |}.

(** The response carries 'Vary: *': the Cache API refuses to store it. *)
Definition vary_star (r : Response) : bool :=
  existsb (String.eqb "*") (vary r).

(** [response.ok], and the responses [cache.addAll] accepts: a 2xx status
    other than 206 and no 'Vary: *'. *)
Definition ok (r : Response) : bool :=
  Nat.leb 200 (status r) && Nat.leb (status r) 299.
Definition cacheable (r : Response) : bool :=
  ok r && negb (Nat.eqb (status r) 206) && negb (vary_star r).

(** One cache: request URL to stored response. *)
Abbreviation Cache := (gmap string Response).

(** [self.caches]: the named caches, in order of creation. *)
Abbreviation CacheStorage := (list (string * Cache)).

(** What the worker can change for good. *)
Record World := mkWorld {
  caches : CacheStorage;
  skipWaitingFlag : bool;
  clientsClaimed : bool
}.

(** The world, plus what the worker wrote and asked for on the way. *)
Record State := mkState {
  world : World;
  console : list string;
  fetched : list Request
}.

Definition set_caches (f : CacheStorage -> CacheStorage) (s : State) : State :=
  {| world := {| caches := f (caches (world s));
                 skipWaitingFlag := skipWaitingFlag (world s);
                 clientsClaimed := clientsClaimed (world s) |};
     console := console s; fetched := fetched s |}.

(** Data posted to the worker: a structured-clone value. *)
Inductive Value :=
| VUndefined
| VNull
| VBool (b : bool)
| VNumber (z : Z)
| VString (s : string)
| VObject (id : nat).

(** [v === lit] for a string literal [lit]. *)
Definition strict_eq_string (v : Value) (lit : string) : bool :=
  match v with
  | VString s => String.eqb s lit
  | _ => false
  end.

Definition show (v : Value) : string :=
  match v with
  | VUndefined => "undefined"
  | VNull => "null"
  | VBool true => "true"
  | VBool false => "false"
  | VNumber z => pretty z
  | VString s => s
  | VObject _ => "[object Object]"
  end.

(** [new URL(u).protocol] for a serialised URL, as [request.url] always is:
    the scheme with its colon; [None] where the constructor throws for want
    of a scheme. *)
Fixpoint URL_protocol (u : string) : option string :=
  match u with
  | EmptyString => None
  | String c rest =>
      if Ascii.eqb c ":" then Some ":"
      else option_map (String c) (URL_protocol rest)
  end.

(** The URL's scheme is http or https: the only requests a cache stores. *)
Definition http_or_https (u : string) : bool :=
  match URL_protocol u with
  | Some protocol => String.eqb protocol "http:" || String.eqb protocol "https:"
  | None => false
  end.

(** The requests a browser hands to a worker's fetch listener are http and
    https ones and, with some browsers, requests of a scheme of the
    browser's own (chrome-extension:); no such scheme begins with 'http'. *)
Definition delivered (protocol : string) : bool :=
  String.eqb protocol "http:" || String.eqb protocol "https:"
  || negb (String.prefix "http" protocol).

(** The URL without its fragment: what a cache compares. *)
Fixpoint strip_fragment (u : string) : string :=
  match u with
  | EmptyString => EmptyString
  | String c rest =>
      if Ascii.eqb c "#" then EmptyString else String c (strip_fragment rest)
  end.

(** *** CacheStorage, as pure functions on the list of caches *)

Fixpoint storage_lookup (name : string) (st : CacheStorage) : option Cache :=
  match st with
  | [] => None
  | (n, c) :: st' => if String.eqb n name then Some c else storage_lookup name st'
  end.

Definition storage_keys (st : CacheStorage) : list string := map fst st.

Definition storage_has (name : string) (st : CacheStorage) : bool :=
  match storage_lookup name st with Some _ => true | None => false end.

Definition storage_open (name : string) (st : CacheStorage) : CacheStorage :=
  if storage_has name st then st else st ++ [(name, ∅)].

Definition storage_delete (name : string) (st : CacheStorage) : CacheStorage :=
  List.filter (fun e => negb (String.eqb (fst e) name)) st.

(** The first cache, in creation order, that holds the URL answers; the
    fragment does not count. Requests carry no headers here, so a stored
    response is found by its URL alone. *)
Fixpoint storage_match (u : string) (st : CacheStorage) : option Response :=
  match st with
  | [] => None
  | (_, c) :: st' =>
      match c !! strip_fragment u with
      | Some r => Some r
      | None => storage_match u st'
      end
  end.

(** Writes through a cache handle go to the cache of that name. *)
Fixpoint storage_put (name u : string) (r : Response) (st : CacheStorage)
  : CacheStorage :=
  match st with
  | [] => []
  | (n, c) :: st' =>
      if String.eqb n name then (n, <[strip_fragment u := r]> c) :: st'
      else (n, c) :: storage_put name u r st'
  end.

(** *** The same, as tasks on the worker's state *)

Definition console_log (line : string) : Task State unit :=
  fun s => (Fulfilled tt,
            {| world := world s; console := console s ++ [line];
               fetched := fetched s |}).

Definition console_error (line : string) : Task State unit :=
  console_log line.

(** [caches.open(name)]: creates the cache when missing; the handle is
    the name. *)
Definition caches_open (name : string) : Task State string :=
  fun s => (Fulfilled name, set_caches (storage_open name) s).

Definition caches_keys : Task State (list string) :=
  fun s => (Fulfilled (storage_keys (caches (world s))), s).

Definition caches_delete (name : string) : Task State bool :=
  fun s => (Fulfilled (storage_has name (caches (world s))),
            set_caches (storage_delete name) s).

(** [caches.match(request)]: only GET requests match. *)
Definition caches_match (req : Request) : Task State (option Response) :=
  fun s =>
    (Fulfilled (if String.eqb (method req) "GET"
                then storage_match (url req) (caches (world s))
                else None), s).

(** The write itself, once request and response are accepted. *)
Definition cache_store (cache : string) (req : Request) (r : Response)
  : Task State unit :=
  fun s => (Fulfilled tt, set_caches (storage_put cache (url req) r) s).

(** What [cache.put] accepts: a GET request for an http(s) URL and a
    response that is neither a 206 nor carries 'Vary: *'. *)
Definition put_accepted (req : Request) (r : Response) : bool :=
  String.eqb (method req) "GET" && http_or_https (url req)
  && negb (Nat.eqb (status r) 206) && negb (vary_star r).

(** [cache.put(request, response)]: rejects with a TypeError, and stores
    nothing, for what it does not accept. *)
Definition cache_put (cache : string) (req : Request) (r : Response)
  : Task State unit :=
  if put_accepted req r then cache_store cache req r
  else reject "TypeError: Failed to execute 'put' on 'Cache'".

Definition skipWaiting : Task State unit :=
  fun s => (Fulfilled tt,
            {| world := {| caches := caches (world s);
                           skipWaitingFlag := true;
                           clientsClaimed := clientsClaimed (world s) |};
               console := console s; fetched := fetched s |}).

Definition clients_claim : Task State unit :=
  fun s => (Fulfilled tt,
            {| world := {| caches := caches (world s);
                           skipWaitingFlag := skipWaitingFlag (world s);
                           clientsClaimed := true |};
               console := console s; fetched := fetched s |}).

Section Network.
(** The origin the worker is served from, and what the network answers:
    a response, a rejection, or (as sw.js allows for) no response. *)
Variable origin : string.
Variable network : Request -> Settled (option Response).

(** A request made from a URL string of the worker's own origin. *)
Definition request_of (path : string) : Request :=
  {| method := "GET"; url := origin +:+ path; mode := "cors" |}.

Definition fetch (req : Request) : Task State (option Response) :=
  fun s => (network req,
            {| world := world s; console := console s;
               fetched := fetched s ++ [req] |}).

(** The fetches of [cache.addAll(paths)], every one of them made. *)
Fixpoint fetch_each (paths : list string)
  : Task State (list (Request * option Response)) :=
  match paths with
  | [] => resolve []
  | p :: ps =>
      fun s =>
        match fetch (request_of p) s with
        | (Fulfilled r, s') =>
            match fetch_each ps s' with
            | (Fulfilled l, s'') => (Fulfilled ((request_of p, r) :: l), s'')
            | (Rejected e, s'') => (Rejected e, s'')
            end
        | (Rejected e, s') => (Rejected e, snd (fetch_each ps s'))
        end
  end.

Definition storable (e : Request * option Response) : bool :=
  match snd e with Some r => cacheable r | None => false end.

Fixpoint put_each (cache : string) (l : list (Request * option Response))
  : Task State unit :=
  match l with
  | [] => resolve tt
  | (req, Some r) :: l' => (cache_store cache req r ;; put_each cache l')
  | (_, None) :: l' => put_each cache l'
  end.

(** [cache.addAll(paths)]: a URL that is not http(s) rejects the call before
    any fetch; then every URL is requested; one failed fetch or one response
    that is not cacheable rejects the whole call, with a TypeError of its
    own, and nothing is stored; otherwise every response is stored. *)
Definition cache_addAll (cache : string) (paths : list string)
  : Task State unit :=
  if forallb (fun p => http_or_https (url (request_of p))) paths
  then
    (l <- catch_ (fetch_each paths)
                 (fun _ => reject "TypeError: Failed to fetch") ;;
     if forallb storable l then put_each cache l
     else reject "TypeError: Request failed")
  else reject "TypeError: Request scheme is unsupported".
End Network.

End Platform.

Import Platform.

(* ===================================================================== *)
(** ** sw.js                                                              *)
(* ===================================================================== *)

Module SW.

Definition CACHE_NAME : string := "delayed-mirror-v1.0.0".

Definition FILES_TO_CACHE : list string :=
  [ "/";
    "/index.html";
    "/manifest.json";
    "/icons/icon-72.png";
    "/icons/icon-96.png";
    "/icons/icon-128.png";
    "/icons/icon-144.png";
    "/icons/icon-152.png";
    "/icons/icon-192.png";
    "/icons/icon-384.png";
    "/icons/icon-512.png" ].

(** The filter of the activate listener:
    [cacheName.startsWith('delayed-mirror-') && cacheName !== CACHE_NAME]. *)
Definition stale (cacheName : string) : bool :=
  String.prefix "delayed-mirror-" cacheName
  && negb (String.eqb cacheName CACHE_NAME).

Section Listeners.
Variable origin : string.
Variable network : Request -> Settled (option Response).

(** *** install: the outcome is the promise handed to [event.waitUntil] *)
Definition install : Task State unit :=
  (console_log "[ServiceWorker] Installing..." ;;
   catch_
     (cache <- caches_open CACHE_NAME ;;
      console_log "[ServiceWorker] Caching app shell" ;;
      cache_addAll origin network cache FILES_TO_CACHE ;;
      skipWaiting)
     (fun error =>
        console_error ("[ServiceWorker] Install failed: " +:+ error))).

(** *** activate: the outcome is the promise handed to [event.waitUntil] *)
Definition delete_old (cacheName : string) : Task State bool :=
  (console_log ("[ServiceWorker] Deleting old cache: " +:+ cacheName) ;;
   caches_delete cacheName).

Definition activate : Task State unit :=
  (console_log "[ServiceWorker] Activating..." ;;
   cacheNames <- caches_keys ;;
   Promise.all (map delete_old (List.filter stale cacheNames)) ;;
   clients_claim).

(** *** fetch *)

(** The promise handed to [event.respondWith]. *)
Definition respond (request : Request) : Task State (option Response) :=
  (cachedResponse <- caches_match request ;;
   match cachedResponse with
   | Some cached =>
       console_log ("[ServiceWorker] Serving from cache: " +:+ url request) ;;
       resolve (Some cached)
   | None =>
       console_log ("[ServiceWorker] Fetching: " +:+ url request) ;;
       catch_
         (networkResponse <- fetch network request ;;
          match networkResponse with
          | None => resolve None
          | Some response =>
              if negb (Nat.eqb (status response) 200)
                 || negb (String.eqb (type response) "basic")
              then resolve (Some response)
              else
                let responseToCache := clone response in
                detached (cache <- caches_open CACHE_NAME ;;
                          cache_put cache request responseToCache) ;;
                resolve (Some response)
          end)
         (fun error =>
            console_error ("[ServiceWorker] Fetch failed: " +:+ error) ;;
            if String.eqb (mode request) "navigate"
            then caches_match (request_of origin "/index.html")
            else resolve (Some {| status := 503;
                                  statusText := "Service Unavailable";
                                  type := "default";
                                  body := "Offline";
                                  vary := [] |}))
   end).

(** The listener. [None]: it returned without [event.respondWith], and
    the browser handles the request as if there were no worker. *)
Definition on_fetch (request : Request) (s : State)
  : option (Settled (option Response)) * State :=
  if negb (String.eqb (method request) "GET") then (None, s)
  else
    match URL_protocol (url request) with
    | None => (None, s)
    | Some protocol =>
        if negb (String.prefix "http" protocol) then (None, s)
        else let (r, s') := respond request s in (Some r, s')
    end.

(** *** message *)
Definition on_message (data : Value) : Task State unit :=
  (console_log ("[ServiceWorker] Message received: " +:+ show data) ;;
   (if strict_eq_string data "skipWaiting" then skipWaiting
    else resolve tt) ;;
   (if strict_eq_string data "clearCache"
    then detached (caches_delete CACHE_NAME ;;
                   console_log "[ServiceWorker] Cache cleared")
    else resolve tt)).
End Listeners.

End SW.

(* ===================================================================== *)
(** ** The frame ring buffer                                              *)
(* ===================================================================== *)

Module Ring.

Local Open Scope nat_scope.

Section Buffer.
(** One captured image with its timestamp. *)
Context {Frame : Type}.

(** Modelled from the spec: the frame buffer lives in index.html, which is
    not among the sources. A fixed-size circular array of frame slots
    with a write cursor and a fill count; the read cursor keeps a
    constant offset of [delayFrames] behind the write cursor. *)
Record RingBuffer := mkRing {
  slots : list (option Frame);
  capacity : nat;
  writePos : nat;
  filled : nat
}.

(** Modelled from the spec: index.html's allocation of the buffer is
    missing; the capacity is rate times delay in seconds, every slot
    empty, fill state reset. Changing the delay allocates anew. *)
Definition create (rate delay_seconds : nat) : RingBuffer :=
  {| slots := replicate (rate * delay_seconds) None;
     capacity := rate * delay_seconds;
     writePos := 0;
     filled := 0 |}.

Definition setDelay (rate delay_seconds : nat) (_ : RingBuffer) : RingBuffer :=
  create rate delay_seconds.

(** Modelled from the spec: index.html's delay in frames is missing; the
    read and write cursors are a whole buffer apart. *)
Definition delayFrames (b : RingBuffer) : nat := capacity b.

(** Modelled from the spec: index.html's push is missing; it stores the
    newest sample at the write cursor, overwriting the oldest when the
    buffer is full, and advances the cursor around the ring. *)
Definition push (frame : Frame) (b : RingBuffer) : RingBuffer :=
  {| slots := <[writePos b := Some frame]> (slots b);
     capacity := capacity b;
     writePos := (writePos b + 1) mod capacity b;
     filled := Nat.min (filled b + 1) (capacity b) |}.

(** Modelled from the spec: index.html's readDelayed is missing; it
    yields the frame [delayFrames] samples behind the write position, or
    nothing while too few frames have been captured. *)
Definition readDelayed (b : RingBuffer) : option Frame :=
  if filled b <? delayFrames b then None
  else
    match slots b !! ((writePos b + capacity b - delayFrames b) mod capacity b) with
    | Some slot => slot
    | None => None
    end.

(** A run of sampling ticks, oldest frame first. *)
Definition push_all (frames : list Frame) (b : RingBuffer) : RingBuffer :=
  fold_left (fun acc frame => push frame acc) frames b.
End Buffer.

Arguments RingBuffer Frame : clear implicits.

End Ring.

(* ===================================================================== *)
(** ** Sample worlds, networks and requests                               *)
(* ===================================================================== *)

Module Samples.

Definition origin0 : string := "https://mirror.example".

Definition page (content : string) : Response :=
  {| status := 200; statusText := "OK"; type := "basic"; body := content;
     vary := [] |}.

Definition not_found : Response :=
  {| status := 404; statusText := "Not Found"; type := "basic"; body := "";
     vary := [] |}.

(** Every request is answered with a same-origin 200. *)
Definition network_up (req : Request) : Settled (option Response) :=
  Fulfilled (Some (page (url req))).

(** No request gets through. *)
Definition network_down (req : Request) : Settled (option Response) :=
  Rejected "TypeError: Failed to fetch".

(** Every request is answered with a 404. *)
Definition network_404 (req : Request) : Settled (option Response) :=
  Fulfilled (Some not_found).

(** A same-origin 200 whose content varies with anything. *)
Definition varying (content : string) : Response :=
  {| status := 200; statusText := "OK"; type := "basic"; body := content;
     vary := ["*"] |}.

(** Every request is answered with a 200 carrying 'Vary: *'. *)
Definition network_varying (req : Request) : Settled (option Response) :=
  Fulfilled (Some (varying (url req))).

(** One icon of the app shell cannot be fetched, the rest can. *)
Definition network_flaky (req : Request) : Settled (option Response) :=
  if String.eqb (url req) (origin0 +:+ "/icons/icon-72.png")
  then Rejected "TypeError: Failed to fetch"
  else Fulfilled (Some (page (url req))).

Definition fresh : State :=
  {| world := {| caches := []; skipWaitingFlag := false;
                 clientsClaimed := false |};
     console := []; fetched := [] |}.

(** A worker that finds an older version's cache, its own, and a cache of
    another naming scheme. *)
Definition upgraded : State :=
  {| world :=
       {| caches :=
            [ ("delayed-mirror-v0.9.0", {[ origin0 +:+ "/index.html" := page "old" ]});
              ("delayed-mirror-v1.0.0", {[ origin0 +:+ "/index.html" := page "new" ]});
              ("other-app-v3", {[ origin0 +:+ "/data.json" := page "{}" ]}) ];
          skipWaitingFlag := false; clientsClaimed := false |};
     console := []; fetched := [] |}.

Definition get (u m : string) : Request :=
  {| method := "GET"; url := u; mode := m |}.

Definition script_request : Request := get (origin0 +:+ "/app.js") "no-cors".
Definition index_request : Request := get (origin0 +:+ "/index.html") "navigate".
Definition lesson_request : Request := get (origin0 +:+ "/lesson") "navigate".

(** A GET request of a browser's own scheme, neither http nor https. *)
Definition extension_request : Request :=
  get "chrome-extension://abcdefgh/content.js" "no-cors".

(** A request that is not a GET. *)
Definition post_request : Request :=
  {| method := "POST"; url := origin0 +:+ "/upload"; mode := "cors" |}.

End Samples.

(* ===================================================================== *)
(** ** The worker over its life                                           *)
(* ===================================================================== *)

Module Lifecycle.
Import SW.

(** sw.js, the sync listener: it logs the tag. *)
Definition on_sync (tag : string) : Task State unit :=
  console_log ("[ServiceWorker] Background sync: " +:+ tag).

(** sw.js, the push listener: it logs. *)
Definition on_push : Task State unit :=
  console_log "[ServiceWorker] Push received".

(** The events sw.js listens to. *)
Inductive Event :=
| Install
| Activate
| Fetch (request : Request)
| Message (data : Value)
| Sync (tag : string)
| Push.

(** One event delivered to the worker, with the network as it answers at
    that moment; what is left is the state the listener leaves behind. *)
Definition dispatch (origin : string)
    (step : (Request -> Settled (option Response)) * Event) (s : State) : State :=
  match snd step with
  | Install => snd (install origin (fst step) s)
  | Activate => snd (activate s)
  | Fetch request => snd (on_fetch origin (fst step) request s)
  | Message data => snd (on_message data s)
  | Sync tag => snd (on_sync tag s)
  | Push => snd (on_push s)
  end.

(** Any sequence of events, in any order. *)
Definition run (origin : string)
    (steps : list ((Request -> Settled (option Response)) * Event)) (s : State)
  : State :=
  fold_left (fun acc step => dispatch origin step acc) steps s.

(** The worker once installed and activated: the state the two listeners
    leave behind, one after the other. *)
Definition installed (origin : string)
    (network : Request -> Settled (option Response)) (s : State) : State :=
  snd (activate (snd (install origin network s))).

(** A run of writes through one cache handle, as [cache.addAll] makes them
    once every response is in. *)
Definition storage_put_all (cache : string)
    (l : list (Request * option Response)) (st : CacheStorage) : CacheStorage :=
  fold_left (fun acc e =>
               match snd e with
               | Some r => storage_put cache (url (fst e)) r acc
               | None => acc
               end) l st.

(** The request [cache.addAll] makes for a path, with what came back. *)
Definition shell_entry (origin : string)
    (network : Request -> Settled (option Response)) (path : string)
  : Request * option Response :=
  (request_of origin path,
   match network (request_of origin path) with
   | Fulfilled answer => answer
   | Rejected _ => None
   end).

(** What [cache.addAll] would store for a path: the network's answer when
    it is a cacheable response. *)
Definition shell_answer (origin : string)
    (network : Request -> Settled (option Response)) (path : string)
  : option Response :=
  match network (request_of origin path) with
  | Fulfilled (Some r) => if cacheable r then Some r else None
  | _ => None
  end.

End Lifecycle.

(* ===================================================================== *)
(** ** Facts about the CacheStorage                                       *)
(* ===================================================================== *)

Module StorageFacts.

Lemma lookup_filter (keep : string -> bool) (name : string) (st : CacheStorage) :
  storage_lookup name (List.filter (fun e => keep (fst e)) st)
  = if keep name then storage_lookup name st else None.
Proof.
  induction st as [|[n c] st IH]; simpl.
  - now destruct (keep name).
  - destruct (String.eqb n name) eqn:E.
    + apply String.eqb_eq in E; subst n.
      destruct (keep name) eqn:K; simpl.
      * now rewrite String.eqb_refl.
      * exact IH.
    + destruct (keep n); simpl; [rewrite E|]; exact IH.
Qed.

Lemma lookup_delete (gone name : string) (st : CacheStorage) :
  storage_lookup name (storage_delete gone st)
  = if String.eqb name gone then None else storage_lookup name st.
Proof.
  unfold storage_delete.
  rewrite (lookup_filter (fun n => negb (String.eqb n gone))).
  now destruct (String.eqb name gone).
Qed.

(** Deleting a list of names one after the other keeps what none of them
    names. *)
Lemma delete_each (names : list string) (st : CacheStorage) :
  fold_left (fun acc n => storage_delete n acc) names st
  = List.filter (fun e => negb (existsb (String.eqb (fst e)) names)) st.
Proof.
  revert st; induction names as [|n names IH]; intros st; simpl.
  - induction st as [|e st IHst]; simpl; congruence.
  - rewrite IH. unfold storage_delete.
    induction st as [|e st IHst]; simpl; [reflexivity|].
    destruct (String.eqb (fst e) n); simpl; [exact IHst|].
    destruct (existsb (String.eqb (fst e)) names); simpl; congruence.
Qed.

Lemma existsb_stale_keys (st : CacheStorage) (e : string * Cache) :
  In e st ->
  existsb (String.eqb (fst e)) (List.filter SW.stale (storage_keys st))
  = SW.stale (fst e).
Proof.
  intros Hin.
  destruct (SW.stale (fst e)) eqn:Hs.
  - apply existsb_exists. exists (fst e). split.
    + apply filter_In. split; [|exact Hs].
      unfold storage_keys. now apply in_map.
    + apply String.eqb_refl.
  - apply Bool.not_true_is_false. intros Hex.
    apply existsb_exists in Hex. destruct Hex as (n & Hn & Heq).
    apply String.eqb_eq in Heq. subst n.
    apply filter_In in Hn. destruct Hn as [_ Hn]. congruence.
Qed.

Lemma stale_current : SW.stale SW.CACHE_NAME = false.
Proof. reflexivity. Qed.

Lemma stale_prefix (name : string) :
  String.prefix "delayed-mirror-" name = false -> SW.stale name = false.
Proof. unfold SW.stale. now intros ->. Qed.

End StorageFacts.

(* ===================================================================== *)
(** ** activate                                                           *)
(* ===================================================================== *)

Module ActivateFacts.
Import SW StorageFacts.

Lemma delete_old_run (n : string) (s : State) :
  delete_old n s
  = (Fulfilled (storage_has n (caches (world s))),
     set_caches (storage_delete n)
       {| world := world s;
          console := console s ++ ["[ServiceWorker] Deleting old cache: " +:+ n];
          fetched := fetched s |}).
Proof. reflexivity. Qed.

(** The deletions of the activate listener, run as promises. *)
Lemma delete_old_all (names : list string) (s : State) :
  is_rejected (fst (Promise.all (map delete_old names) s)) = false
  /\ caches (world (snd (Promise.all (map delete_old names) s)))
     = fold_left (fun acc n => storage_delete n acc) names (caches (world s))
  /\ skipWaitingFlag (world (snd (Promise.all (map delete_old names) s)))
     = skipWaitingFlag (world s)
  /\ clientsClaimed (world (snd (Promise.all (map delete_old names) s)))
     = clientsClaimed (world s)
  /\ fetched (snd (Promise.all (map delete_old names) s)) = fetched s.
Proof.
  revert s; induction names as [|n names IH]; intros s.
  - repeat split.
  - cbn [map Promise.all fold_left]. rewrite delete_old_run.
    match goal with
    | |- context [Promise.all _ ?s1] => specialize (IH s1);
        destruct (Promise.all (map delete_old names) s1) as [[l|e] s2]
    end; simpl in *; destruct IH as (H0 & H1 & H2 & H3 & H4);
      try discriminate; repeat split; assumption.
Qed.

Lemma activate_caches (s : State) :
  fst (activate s) = Fulfilled tt
  /\ caches (world (snd (activate s)))
     = List.filter (fun e => negb (stale (fst e))) (caches (world s)).
Proof.
  unfold activate, then_, console_log, caches_keys. simpl.
  match goal with
  | |- context [Promise.all (map delete_old ?ns) ?s1] =>
      pose proof (delete_old_all ns s1) as H; simpl in H;
      destruct (Promise.all (map delete_old ns) s1) as [[l|e] s2]
  end; simpl in *; destruct H as (H0 & H1 & _); try discriminate.
  split; [reflexivity|].
  rewrite H1, delete_each.
  apply filter_ext_in. intros e He.
  now rewrite existsb_stale_keys.
Qed.

(** C2. Whatever caches exist, the activate listener deletes exactly the
    caches whose name starts with 'delayed-mirror-' and is not CACHE_NAME:
    the caches left are the others, in their order and with their
    contents; a name looks up to nothing afterwards when it is stale and
    to its old cache when it is not; and the cache named CACHE_NAME is
    never deleted. *)
Theorem activate_deletes_exactly_stale (s : State) :
  fst (activate s) = Fulfilled tt
  /\ caches (world (snd (activate s)))
     = List.filter (fun e => negb (String.prefix "delayed-mirror-" (fst e)
                                   && negb (String.eqb (fst e) CACHE_NAME)))
                   (caches (world s))
  /\ (forall name,
        storage_lookup name (caches (world (snd (activate s))))
        = if String.prefix "delayed-mirror-" name
             && negb (String.eqb name CACHE_NAME)
          then None
          else storage_lookup name (caches (world s)))
  /\ storage_lookup CACHE_NAME (caches (world (snd (activate s))))
     = storage_lookup CACHE_NAME (caches (world s)).
Proof.
  destruct (activate_caches s) as [Hr Hc].
  assert (Hl : forall name,
             storage_lookup name (caches (world (snd (activate s))))
             = if stale name then None
               else storage_lookup name (caches (world s))).
  { intros name. rewrite Hc.
    rewrite (lookup_filter (fun n => negb (stale n))).
    now destruct (stale name). }
  repeat split; try assumption.
  now rewrite Hl, stale_current.
Qed.

(** C9. A cache whose name does not start with 'delayed-mirror-' is left
    untouched by the activate listener: the name still looks up to the very
    same cache. *)
Theorem activate_keeps_foreign (s : State) (name : string) :
  String.prefix "delayed-mirror-" name = false ->
  storage_lookup name (caches (world (snd (activate s))))
  = storage_lookup name (caches (world s)).
Proof.
  intros Hp. destruct (activate_caches s) as [_ Hc].
  rewrite Hc, (lookup_filter (fun n => negb (stale n))).
  now rewrite (stale_prefix name Hp).
Qed.

Lemma activate_keeps_foreign_witness :
  String.prefix "delayed-mirror-" "other-app-v3" = false
  /\ storage_lookup "other-app-v3"
       (caches (world (snd (activate Samples.upgraded))))
     = storage_lookup "other-app-v3" (caches (world Samples.upgraded)).
Proof.
  split; [reflexivity|].
  apply (activate_keeps_foreign Samples.upgraded "other-app-v3").
  reflexivity.
Defined.

Example activate_upgraded :
  storage_keys (caches (world (snd (activate Samples.upgraded))))
  = ["delayed-mirror-v1.0.0"; "other-app-v3"]
  /\ clientsClaimed (world (snd (activate Samples.upgraded))) = true.
Proof. split; reflexivity. Qed.

End ActivateFacts.

(* ===================================================================== *)
(** ** fetch                                                              *)
(* ===================================================================== *)

Module FetchFacts.
Import SW StorageFacts.

Lemma clone_same (r : Response) : clone r = r.
Proof. now destruct r. Qed.

Lemma has_open (name : string) (st : CacheStorage) :
  storage_has name (storage_open name st) = true.
Proof.
  unfold storage_open. destruct (storage_has name st) eqn:H; [exact H|].
  unfold storage_has in *.
  induction st as [|[n c] st IH]; simpl in *.
  - now rewrite String.eqb_refl.
  - destruct (String.eqb n name); [discriminate | now apply IH].
Qed.

Lemma match_open (u name : string) (st : CacheStorage) :
  storage_match u (storage_open name st) = storage_match u st.
Proof.
  unfold storage_open. destruct (storage_has name st); [reflexivity|].
  induction st as [|[n c] st IH]; simpl.
  - now rewrite lookup_empty.
  - now destruct (c !! strip_fragment u).
Qed.

Lemma match_put (u name : string) (r : Response) (st : CacheStorage) :
  storage_has name st = true ->
  storage_match u st = None ->
  storage_match u (storage_put name u r st) = Some r.
Proof.
  unfold storage_has.
  induction st as [|[n c] st IH]; simpl; [discriminate|].
  intros Hhas Hmiss.
  destruct (c !! strip_fragment u) eqn:Hc; [discriminate|].
  destruct (String.eqb n name); simpl.
  - now rewrite lookup_insert_eq.
  - rewrite Hc. now apply IH.
Qed.

Lemma lookup_put (u name : string) (r : Response) (st : CacheStorage) :
  storage_lookup name (storage_put name u r st)
  = (fun c => <[strip_fragment u := r]> c) <$> storage_lookup name st.
Proof.
  induction st as [|[n c] st IH]; simpl; [reflexivity|].
  destruct (String.eqb n name) eqn:E; simpl; rewrite E; [reflexivity | exact IH].
Qed.

(** Past its two guards the listener hands [respond] to respondWith. *)
Lemma on_fetch_handled origin network (req : Request) (s : State) protocol :
  method req = "GET" ->
  URL_protocol (url req) = Some protocol ->
  String.prefix "http" protocol = true ->
  on_fetch origin network req s
  = (Some (fst (respond origin network req s)),
     snd (respond origin network req s)).
Proof.
  intros Hm Hu Hp. unfold on_fetch. rewrite Hm, Hu, Hp. simpl.
  now destruct (respond origin network req s).
Qed.

Lemma respond_hit origin network (req : Request) (s : State) cached :
  method req = "GET" ->
  storage_match (url req) (caches (world s)) = Some cached ->
  respond origin network req s
  = (Fulfilled (Some cached),
     {| world := world s;
        console := console s ++ ["[ServiceWorker] Serving from cache: " +:+ url req];
        fetched := fetched s |}).
Proof.
  intros Hm Hc. unfold respond, then_, caches_match. rewrite Hm. simpl.
  now rewrite Hc.
Qed.

(** On a miss the network is asked, once, for the request itself. *)
Lemma respond_miss origin network (req : Request) (s : State) :
  method req = "GET" ->
  storage_match (url req) (caches (world s)) = None ->
  fetched (snd (respond origin network req s)) = (fetched s ++ [req])%list.
Proof.
  intros Hm Hc. unfold respond, then_, catch_, caches_match, fetch.
  rewrite Hm. simpl. rewrite Hc. simpl.
  destruct (network req) as [[r|]|e]; simpl; try reflexivity.
  - destruct (negb (Nat.eqb (status r) 200)
              || negb (String.eqb (type r) "basic")); [reflexivity|].
    unfold detached, then_, caches_open, cache_put.
    destruct (put_accepted req (clone r)); reflexivity.
  - destruct (String.eqb (mode req) "navigate"); reflexivity.
Qed.


Lemma put_accepted_clone (req : Request) (r : Response) :
  put_accepted req (clone r) = put_accepted req r.
Proof. reflexivity. Qed.

(** What [cache.put] accepts of the fetch listener: an http or https URL
    and a 200 without 'Vary: *'. *)
Lemma put_accepted_200 (req : Request) (r : Response) protocol :
  method req = "GET" ->
  URL_protocol (url req) = Some protocol ->
  protocol = "http:" \/ protocol = "https:" ->
  status r = 200 ->
  vary_star r = false ->
  put_accepted req r = true.
Proof.
  intros Hm Hu Hp Hs Hv. unfold put_accepted, http_or_https.
  rewrite Hm, Hu, Hs, Hv. now destruct Hp as [-> | ->].
Qed.

(** What the listener leaves behind after a miss answered by a same-origin
    200: the current cache is opened and, when cache.put accepts it, the
    copy put under the URL. *)
Lemma respond_store origin network (req : Request) (s : State) response :
  method req = "GET" ->
  storage_match (url req) (caches (world s)) = None ->
  network req = Fulfilled (Some response) ->
  status response = 200 ->
  type response = "basic" ->
  fst (respond origin network req s) = Fulfilled (Some response)
  /\ caches (world (snd (respond origin network req s)))
     = if put_accepted req response
       then storage_put CACHE_NAME (url req) (clone response)
              (storage_open CACHE_NAME (caches (world s)))
       else storage_open CACHE_NAME (caches (world s)).
Proof.
  intros Hm Hc Hn Hs Ht. unfold respond, then_, catch_, caches_match, fetch.
  rewrite Hm. simpl. rewrite Hc. simpl. rewrite Hn, Hs, Ht. simpl.
  unfold detached, then_, caches_open, cache_put.
  rewrite put_accepted_clone.
  destruct (put_accepted req response); split; reflexivity.
Qed.

(** C5. A GET request for an http or https URL that misses the cache and is
    answered by the network with status 200, type 'basic' and no 'Vary: *'
    gets that response, and a clone of it is stored under the request's URL
    in the cache named CACHE_NAME; the same request then finds it in the
    cache and is served from there without the network. *)
Theorem fetch_miss_stores_clone origin network (req : Request) (s : State)
    protocol response :
  method req = "GET" ->
  URL_protocol (url req) = Some protocol ->
  protocol = "http:" \/ protocol = "https:" ->
  storage_match (url req) (caches (world s)) = None ->
  network req = Fulfilled (Some response) ->
  status response = 200 ->
  type response = "basic" ->
  vary_star response = false ->
  fst (on_fetch origin network req s) = Some (Fulfilled (Some response))
  /\ (exists cache,
        storage_lookup CACHE_NAME
          (caches (world (snd (on_fetch origin network req s)))) = Some cache
        /\ cache !! strip_fragment (url req) = Some (clone response))
  /\ storage_match (url req)
       (caches (world (snd (on_fetch origin network req s))))
     = Some (clone response)
  /\ fst (on_fetch origin network req (snd (on_fetch origin network req s)))
     = Some (Fulfilled (Some (clone response)))
  /\ fetched (snd (on_fetch origin network req
                     (snd (on_fetch origin network req s))))
     = fetched (snd (on_fetch origin network req s)).
Proof.
  intros Hm Hu Hsch Hc Hn Hs Ht Hv.
  assert (Hp : String.prefix "http" protocol = true)
    by (destruct Hsch as [-> | ->]; reflexivity).
  rewrite (on_fetch_handled _ _ _ s _ Hm Hu Hp). simpl.
  destruct (respond_store origin network req s response Hm Hc Hn Hs Ht)
    as [Hr Hst].
  rewrite (put_accepted_200 req response protocol Hm Hu Hsch Hs Hv) in Hst.
  assert (Hfound : storage_match (url req)
                     (caches (world (snd (respond origin network req s))))
                   = Some (clone response)).
  { rewrite Hst. apply match_put; [apply has_open | now rewrite match_open]. }
  split; [now rewrite Hr|].
  split.
  { rewrite Hst, lookup_put.
    pose proof (has_open CACHE_NAME (caches (world s))) as Hh.
    unfold storage_has in Hh.
    destruct (storage_lookup CACHE_NAME (storage_open CACHE_NAME (caches (world s))))
      as [c|]; [|discriminate].
    exists (<[strip_fragment (url req) := clone response]> c).
    split; [reflexivity|].
    apply lookup_insert_eq. }
  split; [exact Hfound|].
  rewrite (on_fetch_handled origin network req _ protocol Hm Hu Hp).
  rewrite (respond_hit origin network req _ _ Hm Hfound).
  split; reflexivity.
Qed.

(** C5 does not hold for every 200 of type 'basic': one that carries
    'Vary: *' is handed to the page, but cache.put refuses it; the current
    cache is opened and left empty, the same request misses again and goes
    to the network a second time. *)
Lemma fetch_miss_vary_star_not_stored :
  method Samples.script_request = "GET"
  /\ storage_match (url Samples.script_request) (caches (world Samples.fresh))
     = None
  /\ Samples.network_varying Samples.script_request
     = Fulfilled (Some (Samples.varying (url Samples.script_request)))
  /\ status (Samples.varying (url Samples.script_request)) = 200
  /\ type (Samples.varying (url Samples.script_request)) = "basic"
  /\ fst (on_fetch Samples.origin0 Samples.network_varying
            Samples.script_request Samples.fresh)
     = Some (Fulfilled (Some (Samples.varying (url Samples.script_request))))
  /\ caches (world (snd (on_fetch Samples.origin0 Samples.network_varying
                           Samples.script_request Samples.fresh)))
     = [(CACHE_NAME, ∅)]
  /\ storage_match (url Samples.script_request)
       (caches (world (snd (on_fetch Samples.origin0 Samples.network_varying
                              Samples.script_request Samples.fresh))))
     = None
  /\ fetched (snd (on_fetch Samples.origin0 Samples.network_varying
                     Samples.script_request
                     (snd (on_fetch Samples.origin0 Samples.network_varying
                             Samples.script_request Samples.fresh))))
     = [Samples.script_request; Samples.script_request].
Proof. vm_compute. repeat split. Qed.


(** C10. A handled GET request that misses the cache and whose network
    fetch yields no response, or one whose status is not 200 or whose type
    is not 'basic', is answered with exactly what the network gave, and
    the caches (and the rest of the world) stay as they are. *)
Theorem fetch_uncacheable_passes_through origin network (req : Request)
    (s : State) protocol answer :
  method req = "GET" ->
  URL_protocol (url req) = Some protocol ->
  String.prefix "http" protocol = true ->
  storage_match (url req) (caches (world s)) = None ->
  network req = Fulfilled answer ->
  (answer = None
   \/ exists response,
        answer = Some response
        /\ (status response <> 200 \/ type response <> "basic")) ->
  fst (on_fetch origin network req s) = Some (Fulfilled answer)
  /\ world (snd (on_fetch origin network req s)) = world s.
Proof.
  intros Hm Hu Hp Hc Hn Hbad.
  rewrite (on_fetch_handled _ _ _ s _ Hm Hu Hp). simpl.
  unfold respond, then_, catch_, caches_match, fetch.
  rewrite Hm. simpl. rewrite Hc. simpl. rewrite Hn.
  destruct Hbad as [-> | (response & -> & Hbad)]; [now simpl|].
  assert (Hguard : negb (Nat.eqb (status response) 200)
                   || negb (String.eqb (type response) "basic") = true).
  { destruct Hbad as [Hs | Ht].
    - apply Nat.eqb_neq in Hs. now rewrite Hs.
    - apply String.eqb_neq in Ht. rewrite Ht. apply Bool.orb_true_r. }
  rewrite Hguard. now simpl.
Qed.

Section Witnesses.
Import Samples.


Lemma fetch_miss_stores_clone_witness :
  storage_match (url script_request) (caches (world fresh)) = None
  /\ network_up script_request = Fulfilled (Some (page (url script_request)))
  /\ storage_match (url script_request)
       (caches (world (snd (on_fetch origin0 network_up script_request fresh))))
     = Some (clone (page (url script_request))).
Proof.
  split; [reflexivity|]. split; [reflexivity|].
  apply (fetch_miss_stores_clone origin0 network_up script_request fresh
           "https:" (page (url script_request)));
    first [right; reflexivity | vm_compute; reflexivity].
Defined.


Lemma fetch_uncacheable_passes_through_witness :
  network_404 script_request = Fulfilled (Some not_found)
  /\ status not_found <> 200
  /\ fst (on_fetch origin0 network_404 script_request fresh)
     = Some (Fulfilled (Some not_found))
  /\ world (snd (on_fetch origin0 network_404 script_request fresh))
     = world fresh.
Proof.
  split; [reflexivity|]. split; [discriminate|].
  apply (fetch_uncacheable_passes_through origin0 network_404
           script_request fresh "https:" (Some not_found));
    try (vm_compute; reflexivity).
  right. exists not_found. split; [reflexivity|]. left. discriminate.
Defined.
End Witnesses.

End FetchFacts.

(* ===================================================================== *)
(** ** The guards of the fetch listener                                   *)
(* ===================================================================== *)

Module GuardFacts.
Import SW Samples.

Lemma on_fetch_skips_other_methods origin network (req : Request) (s : State) :
  method req <> "GET" ->
  on_fetch origin network req s = (None, s).
Proof.
  intros Hm. unfold on_fetch. apply String.eqb_neq in Hm. now rewrite Hm.
Qed.

Lemma on_fetch_skips_other_prefixes origin network (req : Request) (s : State)
    protocol :
  URL_protocol (url req) = Some protocol ->
  String.prefix "http" protocol = false ->
  on_fetch origin network req s = (None, s).
Proof.
  intros Hu Hp. unfold on_fetch. rewrite Hu, Hp.
  now destruct (negb (String.eqb (method req) "GET")).
Qed.

Lemma delivered_other (protocol : string) :
  delivered protocol = true ->
  protocol <> "http:" -> protocol <> "https:" ->
  String.prefix "http" protocol = false.
Proof.
  unfold delivered. intros Hd H1 H2.
  apply String.eqb_neq in H1. apply String.eqb_neq in H2.
  rewrite H1, H2 in Hd. simpl in Hd.
  now destruct (String.prefix "http" protocol).
Qed.

(** C7. A request whose method is not GET, and a request a browser delivers
    whose URL scheme is neither http nor https, gets no answer from the
    fetch listener: it returns without respondWith and leaves everything as
    it was, so the browser handles the request itself. *)
Theorem on_fetch_passes_through origin network (req : Request) (s : State) :
  (method req <> "GET" -> on_fetch origin network req s = (None, s))
  /\ (forall protocol,
        URL_protocol (url req) = Some protocol ->
        delivered protocol = true ->
        protocol <> "http:" -> protocol <> "https:" ->
        on_fetch origin network req s = (None, s)).
Proof.
  split.
  - apply on_fetch_skips_other_methods.
  - intros protocol Hu Hd H1 H2.
    apply (on_fetch_skips_other_prefixes origin network req s protocol Hu).
    now apply delivered_other.
Qed.

Lemma on_fetch_passes_through_witness :
  method post_request <> "GET"
  /\ on_fetch origin0 network_up post_request upgraded = (None, upgraded)
  /\ URL_protocol (url extension_request) = Some "chrome-extension:"
  /\ delivered "chrome-extension:" = true
  /\ on_fetch origin0 network_up extension_request upgraded = (None, upgraded).
Proof.
  split; [discriminate|].
  split.
  { apply (on_fetch_passes_through origin0 network_up post_request upgraded).
    discriminate. }
  split; [reflexivity|]. split; [reflexivity|].
  apply (on_fetch_passes_through origin0 network_up extension_request upgraded)
    with (protocol := "chrome-extension:");
    first [reflexivity | discriminate].
Defined.

End GuardFacts.

(* ===================================================================== *)
(** ** message                                                            *)
(* ===================================================================== *)

Module MessageFacts.
Import SW StorageFacts.

Lemma other_token (data : Value) (lit : string) :
  data <> VString lit -> strict_eq_string data lit = false.
Proof.
  intros Hd. destruct data; simpl; try reflexivity.
  apply String.eqb_neq. congruence.
Qed.

(** C8. The message listener knows two tokens. On 'skipWaiting' it calls
    skipWaiting and leaves the caches alone; on 'clearCache' it deletes the
    cache named CACHE_NAME and nothing else; on every other message the
    world (caches, skipWaiting flag, claimed clients) is as before and the
    network is not asked. *)
Theorem on_message_tokens (data : Value) (s : State) :
  (data = VString "skipWaiting" ->
     world (snd (on_message data s))
     = {| caches := caches (world s);
          skipWaitingFlag := true;
          clientsClaimed := clientsClaimed (world s) |})
  /\ (data = VString "clearCache" ->
      world (snd (on_message data s))
      = {| caches := storage_delete CACHE_NAME (caches (world s));
           skipWaitingFlag := skipWaitingFlag (world s);
           clientsClaimed := clientsClaimed (world s) |}
      /\ storage_lookup CACHE_NAME (caches (world (snd (on_message data s))))
         = None
      /\ forall name, name <> CACHE_NAME ->
           storage_lookup name (caches (world (snd (on_message data s))))
           = storage_lookup name (caches (world s)))
  /\ (data <> VString "skipWaiting" -> data <> VString "clearCache" ->
      world (snd (on_message data s)) = world s
      /\ fetched (snd (on_message data s)) = fetched s)
  /\ fst (on_message data s) = Fulfilled tt
  /\ fetched (snd (on_message data s)) = fetched s.
Proof.
  repeat split.
  - intros ->. reflexivity.
  - subst data. reflexivity.
  - subst data. cbn. rewrite lookup_delete. now rewrite String.eqb_refl.
  - subst data. intros name Hne. cbn. rewrite lookup_delete.
    apply String.eqb_neq in Hne. now rewrite Hne.
  - unfold on_message, then_, console_log.
    rewrite (other_token data "skipWaiting"), (other_token data "clearCache");
      try assumption.
    simpl. now destruct (world s).
  - unfold on_message, then_, console_log.
    rewrite (other_token data "skipWaiting"), (other_token data "clearCache");
      try assumption.
    reflexivity.
  - unfold on_message, then_, console_log, detached.
    destruct (strict_eq_string data "skipWaiting");
      destruct (strict_eq_string data "clearCache"); reflexivity.
  - unfold on_message, then_, console_log, detached.
    destruct (strict_eq_string data "skipWaiting");
      destruct (strict_eq_string data "clearCache"); reflexivity.
Qed.

Lemma on_message_tokens_witness :
  VNumber 7 <> VString "skipWaiting"
  /\ VNumber 7 <> VString "clearCache"
  /\ world (snd (on_message (VNumber 7) Samples.upgraded))
     = world Samples.upgraded
  /\ world (snd (on_message (VString "skipWaiting") Samples.fresh))
     = {| caches := []; skipWaitingFlag := true; clientsClaimed := false |}
  /\ storage_lookup CACHE_NAME
       (caches (world (snd (on_message (VString "clearCache") Samples.upgraded))))
     = None.
Proof.
  split; [discriminate|]. split; [discriminate|].
  split.
  { apply (on_message_tokens (VNumber 7) Samples.upgraded); discriminate. }
  split.
  { apply (on_message_tokens (VString "skipWaiting") Samples.fresh).
    reflexivity. }
  apply (on_message_tokens (VString "clearCache") Samples.upgraded).
  reflexivity.
Defined.

End MessageFacts.

(* ===================================================================== *)
(** ** install                                                            *)
(* ===================================================================== *)

Module InstallFacts.
Import SW Samples.

Lemma fetch_each_world origin network (paths : list string) (s : State) :
  world (snd (fetch_each origin network paths s)) = world s.
Proof.
  revert s; induction paths as [|p paths IH]; intros s; simpl; [reflexivity|].
  match goal with
  | |- context [fetch_each _ _ _ ?s1] => specialize (IH s1)
  end.
  destruct (network (request_of origin p)) as [r|e]; simpl.
  - destruct (fetch_each origin network paths _) as [[l|e] s2]; exact IH.
  - exact IH.
Qed.

Lemma fetch_each_rejected origin network (paths : list string) (s : State)
    path reason :
  In path paths ->
  network (request_of origin path) = Rejected reason ->
  is_rejected (fst (fetch_each origin network paths s)) = true.
Proof.
  intros Hin Hrej. revert s.
  induction paths as [|p paths IH]; intros s; simpl; [contradiction|].
  destruct (network (request_of origin p)) as [r|e] eqn:Hp; simpl;
    [|reflexivity].
  destruct Hin as [-> | Hin]; [congruence|].
  match goal with
  | |- context [fetch_each _ _ _ ?s1] => specialize (IH Hin s1)
  end.
  destruct (fetch_each origin network paths _) as [[l|e] s2];
    [discriminate | reflexivity].
Qed.

Lemma catch_fulfils {S : Type} (p : Task S unit) (h : string -> Task S unit) :
  (forall e s, fst (h e s) = Fulfilled tt) ->
  forall s, fst (catch_ p h s) = Fulfilled tt.
Proof.
  intros Hh s. unfold catch_. destruct (p s) as [[[]|e] s']; [reflexivity|].
  apply Hh.
Qed.

(** The promise handed to waitUntil ends in the catch handler, which logs
    and returns nothing: whatever the network does, it is fulfilled. *)
Lemma install_never_rejects origin network (s : State) :
  fst (install origin network s) = Fulfilled tt.
Proof.
  unfold install. unfold then_ at 1. unfold console_log at 1.
  cbv beta iota. apply catch_fulfils. reflexivity.
Qed.

Lemma addAll_rejected origin network cache (paths : list string) (s : State)
    path reason :
  In path paths ->
  network (request_of origin path) = Rejected reason ->
  is_rejected (fst (cache_addAll origin network cache paths s)) = true
  /\ world (snd (cache_addAll origin network cache paths s)) = world s.
Proof.
  intros Hin Hrej. unfold cache_addAll.
  destruct (forallb (fun p => http_or_https (url (request_of origin p))) paths);
    [|split; reflexivity].
  unfold then_, catch_.
  pose proof (fetch_each_rejected origin network paths s path reason Hin Hrej) as Hr.
  pose proof (fetch_each_world origin network paths s) as Hw.
  destruct (fetch_each origin network paths s) as [[l|e] s1]; [discriminate|].
  split; [reflexivity | exact Hw].
Qed.

(** One asset that cannot be fetched: nothing is stored, skipWaiting is
    not called, and the promise is fulfilled all the same. *)
Lemma install_swallows_failure origin network (s : State) path reason :
  In path FILES_TO_CACHE ->
  network (request_of origin path) = Rejected reason ->
  fst (install origin network s) = Fulfilled tt
  /\ caches (world (snd (install origin network s)))
     = storage_open CACHE_NAME (caches (world s))
  /\ skipWaitingFlag (world (snd (install origin network s)))
     = skipWaitingFlag (world s).
Proof.
  intros Hin Hrej. split; [apply install_never_rejects|].
  unfold install. remember FILES_TO_CACHE as files eqn:Hfiles. clear Hfiles.
  unfold then_, catch_, caches_open, console_log, console_error.
  match goal with
  | |- context [cache_addAll origin network ?c files ?s1] =>
      destruct (addAll_rejected origin network c files s1 path reason Hin Hrej)
        as [Hr Hw];
      destruct (cache_addAll origin network c files s1) as [[[]|e] s2]
  end; [discriminate|].
  cbn in Hw |- *. rewrite Hw. split; reflexivity.
Qed.

(** C1. An install during which the fetch of '/icons/icon-72.png' rejects
    does not fail: the promise handed to waitUntil is fulfilled, not
    rejected, with the cache opened and left empty, skipWaiting not called
    and the failure only on the console. *)
Theorem install_flaky_is_fulfilled :
  In "/icons/icon-72.png" FILES_TO_CACHE
  /\ is_rejected (network_flaky (request_of origin0 "/icons/icon-72.png")) = true
  /\ fst (install origin0 network_flaky fresh) = Fulfilled tt
  /\ caches (world (snd (install origin0 network_flaky fresh)))
     = [(CACHE_NAME, ∅)]
  /\ skipWaitingFlag (world (snd (install origin0 network_flaky fresh))) = false
  /\ List.last (console (snd (install origin0 network_flaky fresh))) ""
     = "[ServiceWorker] Install failed: TypeError: Failed to fetch".
Proof.
  split; [simpl; tauto|].
  split; [reflexivity|].
  assert (Hrej : network_flaky (request_of origin0 "/icons/icon-72.png")
                 = Rejected "TypeError: Failed to fetch") by reflexivity.
  destruct (install_swallows_failure origin0 network_flaky fresh
              "/icons/icon-72.png" _ ltac:(simpl; tauto) Hrej)
    as (H1 & H2 & H3).
  split; [exact H1|]. split; [exact H2|]. split; [exact H3|].
  vm_compute. reflexivity.
Qed.

(** With the network up the whole app shell is cached and the worker skips
    waiting. *)
Example install_network_up :
  fst (install origin0 network_up fresh) = Fulfilled tt
  /\ skipWaitingFlag (world (snd (install origin0 network_up fresh))) = true
  /\ (storage_lookup CACHE_NAME
        (caches (world (snd (install origin0 network_up fresh))))
      ≫= fun cache => Some (size cache)) = Some 11
  /\ length (fetched (snd (install origin0 network_up fresh))) = 11.
Proof. vm_compute. repeat split. Qed.

End InstallFacts.

(* ===================================================================== *)
(** ** The ring buffer after a run of pushes                              *)
(* ===================================================================== *)

Module RingFacts.
Import Ring.
Local Open Scope nat_scope.

Lemma push_all_snoc {Frame : Type} (frames : list Frame) (f : Frame)
    (b : RingBuffer Frame) :
  push_all (frames ++ [f]) b = push f (push_all frames b).
Proof. unfold push_all. now rewrite fold_left_app. Qed.

(** Two samples less than a buffer apart land in different slots. *)
Lemma slots_apart (c i j : nat) :
  i < j -> j < i + c -> i mod c <> j mod c.
Proof.
  intros Hij Hjc Heq.
  assert (Hc : c <> 0) by lia.
  pose proof (Nat.div_mod_eq i c) as Hi.
  pose proof (Nat.div_mod_eq j c) as Hj.
  rewrite Heq in Hi.
  assert (Hd : j - i = c * (j / c - i / c)) by nia.
  destruct (j / c - i / c) as [|q]; nia.
Qed.

Section Filled.
Context {Frame : Type}.
Variables rate delay_seconds : nat.
Hypothesis Hrate : 0 < rate.
Hypothesis Hdelay : 0 < delay_seconds.

Let c := rate * delay_seconds.

Lemma capacity_positive : 0 < c.
Proof. unfold c. nia. Qed.

(** What a fresh buffer looks like after the frames were pushed: the
    cursor has gone round with them, and each of the last [c] frames
    sits in the slot of its number modulo [c]. *)
Lemma push_all_shape (frames : list Frame) :
  capacity (push_all frames (create rate delay_seconds)) = c
  /\ length (slots (push_all frames (create rate delay_seconds))) = c
  /\ writePos (push_all frames (create rate delay_seconds))
     = length frames mod c
  /\ filled (push_all frames (create rate delay_seconds))
     = Nat.min (length frames) c
  /\ forall j, j < length frames -> length frames <= j + c ->
       slots (push_all frames (create rate delay_seconds)) !! (j mod c)
       = Some (frames !! j).
Proof.
  pose proof capacity_positive as Hc.
  induction frames as [|f frames IH] using rev_ind.
  - cbn. repeat split.
    + apply length_replicate.
    + symmetry. apply Nat.Div0.mod_0_l.
    + intros j Hj. inversion Hj.
  - destruct IH as (Hcap & Hlen & Hw & Hf & Hs).
    rewrite push_all_snoc, length_app. cbn [length].
    unfold push at 1 2 3 4 5. cbn [capacity slots writePos filled].
    rewrite Hcap, Hw, Hf, length_insert, Hlen.
    repeat split.
    + rewrite Nat.Div0.add_mod_idemp_l. reflexivity.
    + lia.
    + intros j Hj Hwin.
      destruct (decide (j = length frames)) as [-> | Hne].
      * rewrite list_lookup_insert_eq.
        -- now rewrite list_lookup_middle.
        -- rewrite Hlen. now apply Nat.mod_upper_bound, Nat.neq_0_lt_0.
      * rewrite list_lookup_insert_ne.
        -- rewrite lookup_app_l by lia. apply Hs; lia.
        -- intros Heq. symmetry in Heq. revert Heq.
           apply slots_apart; lia.
Qed.

(** Until the buffer has been filled once there is nothing to show. *)
Lemma readDelayed_underfilled (frames : list Frame) :
  length frames < rate * delay_seconds ->
  readDelayed (push_all frames (create rate delay_seconds)) = None.
Proof.
  intros Hn. fold c in Hn.
  destruct (push_all_shape frames) as (Hcap & _ & _ & Hf & _).
  unfold readDelayed, delayFrames. rewrite Hcap, Hf.
  replace (Nat.min (length frames) c) with (length frames) by lia.
  apply Nat.ltb_lt in Hn. now rewrite Hn.
Qed.

(** C3. For a frame rate and a delay setting (both positive), the
    buffer holds rate x delay frames, and after capacity + k pushes
    readDelayed yields frame number k of the pushed sequence: the oldest
    frame the buffer still holds, the capacity-th counting back from the
    latest push. At 15 frames a second and a delay of 10 seconds the
    capacity is 150, and after 151 pushes readDelayed yields frame
    number 1. *)
Theorem readDelayed_after_fill (k : nat) (frames : list Frame) :
  length frames = rate * delay_seconds + k ->
  capacity (create (Frame := Frame) rate delay_seconds)
  = rate * delay_seconds
  /\ is_Some (frames !! k)
  /\ readDelayed (push_all frames (create rate delay_seconds))
     = frames !! k
  /\ frames !! k = reverse frames !! (rate * delay_seconds - 1)
  /\ (rate = 15 -> delay_seconds = 10 -> k = 1 ->
      capacity (create (Frame := Frame) rate delay_seconds) = 150
      /\ length frames = 151
      /\ readDelayed (push_all frames (create rate delay_seconds))
         = frames !! 1).
Proof.
  intros Hn.
  pose proof capacity_positive as Hc. fold c in Hn |- *.
  destruct (push_all_shape frames) as (Hcap & Hlen & Hw & Hf & Hs).
  assert (Hk : is_Some (frames !! k)).
  { apply lookup_lt_is_Some_2. lia. }
  assert (Hread : readDelayed (push_all frames (create rate delay_seconds))
                  = frames !! k).
  { unfold readDelayed, delayFrames. rewrite Hcap, Hw, Hf.
    replace (Nat.min (length frames) c) with c by lia.
    rewrite Nat.ltb_irrefl.
    replace (length frames mod c + c - c) with (length frames mod c) by lia.
    rewrite Nat.Div0.mod_mod.
    replace (length frames mod c) with (k mod c).
    - rewrite Hs by lia. reflexivity.
    - rewrite Hn. rewrite Nat.add_comm.
      rewrite <- Nat.Div0.add_mod_idemp_r, Nat.Div0.mod_same, Nat.add_0_r.
      reflexivity. }
  split; [reflexivity|].
  split; [exact Hk|].
  split; [exact Hread|].
  split.
  - rewrite reverse_lookup by lia. f_equal. lia.
  - intros Hr Hd ->. subst rate delay_seconds.
    split; [reflexivity|]. split; [exact Hn | exact Hread].
Qed.
End Filled.

Lemma readDelayed_after_fill_witness :
  0 < 15 /\ 0 < 10 /\ length (seq 0 151) = 15 * 10 + 1
  /\ readDelayed (push_all (seq 0 151) (create 15 10)) = Some 1.
Proof.
  split; [apply Nat.lt_0_succ|]. split; [apply Nat.lt_0_succ|].
  split; [reflexivity|].
  destruct (readDelayed_after_fill 15 10 (Nat.lt_0_succ 14) (Nat.lt_0_succ 9)
              1 (seq 0 151) eq_refl) as (_ & _ & Hread & _).
  rewrite Hread. reflexivity.
Defined.

End RingFacts.


(* ===================================================================== *)
(** ** More on the CacheStorage: entries, writes, first matches           *)
(* ===================================================================== *)

Module StorageMore.
Import Lifecycle.

Lemma lookup_snoc (name n : string) (c : Cache) (st : CacheStorage) :
  storage_lookup name (st ++ [(n, c)])
  = match storage_lookup name st with
    | Some x => Some x
    | None => if String.eqb n name then Some c else None
    end.
Proof.
  induction st as [|[m d] st IH]; simpl; [reflexivity|].
  now destruct (String.eqb m name).
Qed.

Lemma lookup_open (name n : string) (st : CacheStorage) :
  n <> name ->
  storage_lookup name (storage_open n st) = storage_lookup name st.
Proof.
  intros Hne. unfold storage_open. destruct (storage_has n st); [reflexivity|].
  rewrite lookup_snoc. apply String.eqb_neq in Hne. rewrite Hne.
  now destruct (storage_lookup name st).
Qed.

Lemma lookup_put_other (name n u : string) (r : Response) (st : CacheStorage) :
  n <> name ->
  storage_lookup name (storage_put n u r st) = storage_lookup name st.
Proof.
  intros Hne. induction st as [|[m d] st IH]; simpl; [reflexivity|].
  destruct (String.eqb m n) eqn:E; simpl.
  - apply String.eqb_eq in E. subst m.
    apply String.eqb_neq in Hne. now rewrite Hne.
  - now rewrite IH.
Qed.

Lemma has_put (name n u : string) (r : Response) (st : CacheStorage) :
  storage_has name (storage_put n u r st) = storage_has name st.
Proof.
  unfold storage_has.
  induction st as [|[m d] st IH]; simpl; [reflexivity|].
  destruct (String.eqb m n) eqn:E; simpl.
  - now destruct (String.eqb m name).
  - destruct (String.eqb m name); [reflexivity | exact IH].
Qed.

Lemma has_open_mono (name n : string) (st : CacheStorage) :
  storage_has name st = true -> storage_has name (storage_open n st) = true.
Proof.
  unfold storage_open. destruct (storage_has n st); [tauto|].
  unfold storage_has. rewrite lookup_snoc.
  now destruct (storage_lookup name st).
Qed.

(** *** URLs made of an origin and a path *)

Lemma URL_protocol_app (a b protocol : string) :
  URL_protocol a = Some protocol -> URL_protocol (a +:+ b) = Some protocol.
Proof.
  revert protocol. induction a as [|ch a IH]; intros protocol; simpl;
    [discriminate|].
  destruct (Ascii.eqb ch ":"); [tauto|].
  destruct (URL_protocol a) as [q|]; [|discriminate].
  intros [= <-]. now rewrite (IH q eq_refl).
Qed.

Lemma http_or_https_app (a b : string) :
  http_or_https a = true -> http_or_https (a +:+ b) = true.
Proof.
  unfold http_or_https. destruct (URL_protocol a) as [p|] eqn:Hp; [|discriminate].
  now rewrite (URL_protocol_app a b p Hp).
Qed.

Lemma http_or_https_prefix (u : string) :
  http_or_https u = true ->
  exists protocol, URL_protocol u = Some protocol
                   /\ (protocol = "http:" \/ protocol = "https:")
                   /\ String.prefix "http" protocol = true.
Proof.
  unfold http_or_https. destruct (URL_protocol u) as [p|]; [|discriminate].
  intros H. apply Bool.orb_true_iff in H. exists p. split; [reflexivity|].
  destruct H as [H | H]; apply String.eqb_eq in H; subst p;
    split; auto.
Qed.

Lemma strip_fragment_app (a b : string) :
  strip_fragment a = a -> strip_fragment (a +:+ b) = a +:+ strip_fragment b.
Proof.
  induction a as [|ch a IH]; simpl; [reflexivity|].
  destruct (Ascii.eqb ch "#"); [discriminate|].
  intros [= H]. now rewrite (IH H).
Qed.

Lemma files_have_no_fragment (path : string) :
  In path SW.FILES_TO_CACHE -> strip_fragment path = path.
Proof.
  unfold SW.FILES_TO_CACHE. simpl.
  intros H. repeat (destruct H as [<- | H]; [reflexivity|]). destruct H.
Qed.

Lemma file_url_no_fragment (origin path : string) :
  strip_fragment origin = origin ->
  In path SW.FILES_TO_CACHE ->
  strip_fragment (origin +:+ path) = origin +:+ path.
Proof.
  intros Ho Hp. rewrite (strip_fragment_app origin path Ho).
  now rewrite (files_have_no_fragment path Hp).
Qed.

Lemma app_cancel (a b c : string) : a +:+ b = a +:+ c -> b = c.
Proof. induction a as [|ch a IH]; simpl; [tauto|]. intros [= H]. now apply IH. Qed.

(** Where the entries of a storage come from after an open or a put. *)
Lemma in_open (name n : string) (c : Cache) (st : CacheStorage) :
  In (n, c) (storage_open name st) -> In (n, c) st \/ (n = name /\ c = ∅).
Proof.
  unfold storage_open. destruct (storage_has name st); [tauto|].
  intros Hin. apply in_app_or in Hin. destruct Hin as [Hin | [Heq | []]].
  - now left.
  - right. now inversion Heq.
Qed.

Lemma in_put (name n v : string) (r : Response) (c' : Cache) (st : CacheStorage) :
  In (n, c') (storage_put name v r st) ->
  exists c, In (n, c) st
            /\ (c' = c \/ (n = name /\ c' = <[strip_fragment v := r]> c)).
Proof.
  induction st as [|[m d] st IH]; simpl; [tauto|].
  destruct (String.eqb m name) eqn:E.
  - apply String.eqb_eq in E. subst m.
    intros [Heq | Hin].
    + inversion Heq; subst. exists d. split; [now left | now right].
    + exists c'. split; [now right | now left].
  - intros [Heq | Hin].
    + inversion Heq; subst. exists c'. split; [now left | now left].
    + destruct (IH Hin) as (c & Hc & Hor). exists c. split; [now right | exact Hor].
Qed.

(** A first match is held by some cache; no match, by none. *)
Lemma match_in (u : string) (r : Response) (st : CacheStorage) :
  storage_match u st = Some r ->
  exists n c, In (n, c) st /\ c !! strip_fragment u = Some r.
Proof.
  induction st as [|[m d] st IH]; simpl; [discriminate|].
  destruct (d !! strip_fragment u) as [r'|] eqn:Hd.
  - intros [= ->]. exists m, d. split; [now left | exact Hd].
  - intros Hm. destruct (IH Hm) as (n & c & Hin & Hc).
    exists n, c. split; [now right | exact Hc].
Qed.

Lemma match_none (u : string) (st : CacheStorage) :
  storage_match u st = None ->
  forall n c, In (n, c) st -> c !! strip_fragment u = None.
Proof.
  induction st as [|[m d] st IH]; simpl; [tauto|].
  destruct (d !! strip_fragment u) as [r'|] eqn:Hd; [discriminate|].
  intros Hm n c [Heq | Hin].
  - now inversion Heq; subst.
  - now apply (IH Hm n c).
Qed.

Lemma in_match (u : string) (r : Response) (n : string) (c : Cache)
    (st : CacheStorage) :
  In (n, c) st -> c !! strip_fragment u = Some r ->
  is_Some (storage_match u st).
Proof.
  intros Hin Hc. destruct (storage_match u st) eqn:Hm; [eauto|].
  rewrite (match_none u st Hm n c Hin) in Hc. discriminate.
Qed.

Lemma lookup_in (name : string) (c : Cache) (st : CacheStorage) :
  storage_lookup name st = Some c -> In (name, c) st.
Proof.
  induction st as [|[m d] st IH]; simpl; [discriminate|].
  destruct (String.eqb m name) eqn:E.
  - apply String.eqb_eq in E. subst m. intros [= ->]. now left.
  - intros H. right. now apply IH.
Qed.

(** *** Runs of puts *)

Lemma put_all_cons cache (e : Request * option Response) l (st : CacheStorage) :
  storage_put_all cache (e :: l) st
  = storage_put_all cache l
      (match snd e with
       | Some r => storage_put cache (url (fst e)) r st
       | None => st
       end).
Proof. reflexivity. Qed.

Lemma lookup_put_all_other (name cache : string) l (st : CacheStorage) :
  cache <> name ->
  storage_lookup name (storage_put_all cache l st) = storage_lookup name st.
Proof.
  intros Hne. revert st. induction l as [|[req [r|]] l IH]; intros st;
    [reflexivity | |]; rewrite put_all_cons; cbn [fst snd]; rewrite IH;
    [now apply lookup_put_other | reflexivity].
Qed.

Lemma has_put_all (name cache : string) l (st : CacheStorage) :
  storage_has name (storage_put_all cache l st) = storage_has name st.
Proof.
  revert st. induction l as [|[req [r|]] l IH]; intros st;
    [reflexivity | |]; rewrite put_all_cons; cbn [fst snd]; rewrite IH;
    [apply has_put | reflexivity].
Qed.

(** What a cache holds after a run of puts was there before or was put. *)
Lemma in_put_all (cache n : string) (c' : Cache) l (st : CacheStorage) :
  In (n, c') (storage_put_all cache l st) ->
  exists c, In (n, c) st
    /\ forall u r, c' !! u = Some r ->
         c !! u = Some r
         \/ (n = cache
             /\ exists req, In (req, Some r) l /\ strip_fragment (url req) = u).
Proof.
  revert st c'. induction l as [|[req [r1|]] l IH]; intros st c' Hin.
  - exists c'. split; [exact Hin | tauto].
  - rewrite put_all_cons in Hin. cbn [fst snd] in Hin.
    destruct (IH _ _ Hin) as (c1 & Hc1 & Hall).
    destruct (in_put _ _ _ _ _ _ Hc1) as (c & Hc & Hor).
    exists c. split; [exact Hc|].
    intros u r Hu. destruct (Hall u r Hu) as [Hold | (-> & q & Hq & Hurl)].
    + destruct Hor as [-> | (-> & ->)]; [now left|].
      destruct (decide (strip_fragment (url req) = u)) as [Heq | Hne].
      * subst u. rewrite lookup_insert_eq in Hold. injection Hold as ->.
        right. split; [reflexivity|]. exists req. split; [now left | reflexivity].
      * rewrite lookup_insert_ne in Hold by exact Hne. now left.
    + right. split; [reflexivity|]. exists q. split; [now right | exact Hurl].
  - rewrite put_all_cons in Hin. cbn [fst snd] in Hin.
    destruct (IH _ _ Hin) as (c & Hc & Hall).
    exists c. split; [exact Hc|].
    intros u r Hu. destruct (Hall u r Hu) as [Hold | (-> & q & Hq & Hurl)];
      [now left|].
    right. split; [reflexivity|]. exists q. split; [now right | exact Hurl].
Qed.

(** A URL put at least once, always with the same response, is held by the
    cache afterwards with that response. *)
Lemma lookup_put_all (cache u : string) (r : Response) l (st : CacheStorage)
    (c : Cache) :
  storage_lookup cache st = Some c ->
  (forall req a, In (req, a) l -> strip_fragment (url req) = u -> a = Some r) ->
  (c !! u = Some r
   \/ exists req, In (req, Some r) l /\ strip_fragment (url req) = u) ->
  exists c', storage_lookup cache (storage_put_all cache l st) = Some c'
             /\ c' !! u = Some r.
Proof.
  revert st c. induction l as [|[req [r1|]] l IH]; intros st c Hc Hsame Hor.
  - exists c. split; [exact Hc|]. destruct Hor as [H | (q & [] & _)]. exact H.
  - rewrite put_all_cons. cbn [fst snd].
    apply (IH _ (<[strip_fragment (url req) := r1]> c)).
    + rewrite FetchFacts.lookup_put, Hc. reflexivity.
    + intros q a Hq. apply Hsame. now right.
    + destruct (decide (strip_fragment (url req) = u)) as [Heq | Hne].
      * left. subst u.
        assert (Some r1 = Some r) as [= ->] by (apply (Hsame req); [now left | reflexivity]).
        apply lookup_insert_eq.
      * destruct Hor as [H | (q & [Hq | Hq] & Hurl)].
        -- left. now rewrite lookup_insert_ne.
        -- inversion Hq; subst. contradiction.
        -- right. exists q. split; assumption.
  - rewrite put_all_cons. cbn [fst snd].
    apply (IH _ c Hc).
    + intros q a Hq. apply Hsame. now right.
    + destruct Hor as [H | (q & [Hq | Hq] & Hurl)]; [now left | discriminate |].
      right. exists q. split; assumption.
Qed.

End StorageMore.

(* ===================================================================== *)
(** ** install: what ends up in the cache                                 *)
(* ===================================================================== *)

Module InstallMore.
Import SW Lifecycle StorageMore.

Section Shell.
Variable origin : string.
Variable network : Request -> Settled (option Response).

Lemma fetch_each_fetched (paths : list string) (s : State) :
  fetched (snd (fetch_each origin network paths s))
  = (fetched s ++ map (request_of origin) paths)%list
  /\ console (snd (fetch_each origin network paths s)) = console s.
Proof.
  revert s; induction paths as [|p paths IH]; intros s; simpl.
  - now rewrite app_nil_r.
  - match goal with
    | |- context [fetch_each _ _ _ ?s1] => specialize (IH s1)
    end.
    simpl in IH. rewrite <- app_assoc in IH. simpl in IH.
    destruct (network (request_of origin p)) as [r|e]; simpl;
      [destruct (fetch_each origin network paths _) as [[l|e] s2]|]; exact IH.
Qed.

(** With no rejection, the requests come back paired with their answers. *)
Lemma fetch_each_entries (paths : list string) (s : State) :
  (forall p, In p paths -> is_rejected (network (request_of origin p)) = false) ->
  fst (fetch_each origin network paths s)
  = Fulfilled (map (shell_entry origin network) paths).
Proof.
  revert s; induction paths as [|p paths IH]; intros s Hall; simpl;
    [reflexivity|].
  assert (Hp := Hall p (or_introl eq_refl)).
  unfold shell_entry at 1.
  destruct (network (request_of origin p)) as [r|e]; [|discriminate].
  match goal with
  | |- context [fetch_each _ _ _ ?s1] =>
      specialize (IH s1 (fun q Hq => Hall q (or_intror Hq)));
      destruct (fetch_each origin network paths s1) as [[l|e] s2]
  end; simpl in IH; [|discriminate].
  now injection IH as ->.
Qed.

Lemma storable_entry (path : string) :
  storable (shell_entry origin network path)
  = match shell_answer origin network path with Some _ => true | None => false end.
Proof.
  unfold storable, shell_entry, shell_answer. simpl.
  destruct (network (request_of origin path)) as [[r|]|e]; try reflexivity.
  now destruct (cacheable r).
Qed.

Lemma shell_answer_entry (path : string) (r : Response) :
  shell_answer origin network path = Some r ->
  shell_entry origin network path = (request_of origin path, Some r).
Proof.
  unfold shell_answer, shell_entry.
  destruct (network (request_of origin path)) as [[r'|]|e]; try discriminate.
  destruct (cacheable r'); [|discriminate]. now intros [= ->].
Qed.

Lemma shell_answer_cacheable (path : string) (r : Response) :
  shell_answer origin network path = Some r -> cacheable r = true.
Proof.
  unfold shell_answer.
  destruct (network (request_of origin path)) as [[r'|]|e]; try discriminate.
  destruct (cacheable r') eqn:E; [|discriminate]. now intros [= <-].
Qed.

Lemma put_each_run (cache : string) (l : list (Request * option Response))
    (s : State) :
  put_each cache l s = (Fulfilled tt, set_caches (storage_put_all cache l) s).
Proof.
  revert s. induction l as [|[req [r|]] l IH]; intros s.
  - destruct s as [[? ? ?] ? ?]. reflexivity.
  - cbn [put_each]. unfold then_, cache_store. rewrite IH.
    destruct s as [[? ? ?] ? ?]. reflexivity.
  - cbn [put_each]. rewrite IH. reflexivity.
Qed.

(** [cache.addAll] when every path has a cacheable answer. *)
Lemma addAll_stores (cache : string) (paths : list string) (s : State) :
  forallb (fun p => http_or_https (url (request_of origin p))) paths = true ->
  (forall p, In p paths -> is_Some (shell_answer origin network p)) ->
  fst (cache_addAll origin network cache paths s) = Fulfilled tt
  /\ world (snd (cache_addAll origin network cache paths s))
     = world (set_caches
                (storage_put_all cache (map (shell_entry origin network) paths)) s).
Proof.
  intros Hsch Hall. unfold cache_addAll. rewrite Hsch. unfold then_, catch_.
  assert (Hnr : forall p, In p paths ->
                  is_rejected (network (request_of origin p)) = false).
  { intros p Hp. destruct (Hall p Hp) as [r Hr]. unfold shell_answer in Hr.
    now destruct (network (request_of origin p)). }
  pose proof (fetch_each_entries paths s Hnr) as He.
  pose proof (InstallFacts.fetch_each_world origin network paths s) as Hw.
  destruct (fetch_each origin network paths s) as [[l|e] s1];
    simpl in He, Hw; [|discriminate].
  injection He as ->.
  assert (Hst : forallb storable (map (shell_entry origin network) paths) = true).
  { apply forallb_forall. intros e He. apply in_map_iff in He.
    destruct He as (p & <- & Hp). rewrite storable_entry.
    now destruct (Hall p Hp) as [r ->]. }
  rewrite Hst, put_each_run. simpl. split; [reflexivity|].
  unfold set_caches. simpl. now rewrite Hw.
Qed.

(** [cache.addAll] when a URL is not http(s): rejected before any fetch. *)
Lemma addAll_bad_scheme (cache : string) (paths : list string) (s : State) :
  forallb (fun p => http_or_https (url (request_of origin p))) paths = false ->
  is_rejected (fst (cache_addAll origin network cache paths s)) = true
  /\ world (snd (cache_addAll origin network cache paths s)) = world s.
Proof. intros Hsch. unfold cache_addAll. rewrite Hsch. split; reflexivity. Qed.

(** [cache.addAll] when some path has none: rejected, nothing written. *)
Lemma addAll_refuses (cache : string) (paths : list string) (s : State) path :
  In path paths ->
  shell_answer origin network path = None ->
  is_rejected (fst (cache_addAll origin network cache paths s)) = true
  /\ world (snd (cache_addAll origin network cache paths s)) = world s.
Proof.
  intros Hin Hbad.
  destruct (existsb (fun p => is_rejected (network (request_of origin p))) paths)
    eqn:Hex.
  - apply existsb_exists in Hex. destruct Hex as (p & Hp & Hrej).
    destruct (network (request_of origin p)) as [r|e] eqn:Hn; [discriminate|].
    exact (InstallFacts.addAll_rejected origin network cache paths s p e Hp Hn).
  - assert (Hnr : forall p, In p paths ->
                    is_rejected (network (request_of origin p)) = false).
    { intros p Hp. destruct (is_rejected (network (request_of origin p))) eqn:E;
        [|reflexivity].
      assert (existsb (fun p => is_rejected (network (request_of origin p))) paths
              = true) by (apply existsb_exists; eauto).
      congruence. }
    unfold cache_addAll.
    destruct (forallb (fun p => http_or_https (url (request_of origin p))) paths);
      [|split; reflexivity].
    unfold then_, catch_.
    pose proof (fetch_each_entries paths s Hnr) as He.
    pose proof (InstallFacts.fetch_each_world origin network paths s) as Hw.
    destruct (fetch_each origin network paths s) as [[l|e] s1];
      simpl in He, Hw; [|discriminate].
    injection He as ->.
    assert (Hst : forallb storable (map (shell_entry origin network) paths) = false).
    { apply Bool.not_true_is_false. intros Hall.
      rewrite forallb_forall in Hall.
      specialize (Hall (shell_entry origin network path)
                       (in_map _ _ _ Hin)).
      rewrite storable_entry, Hbad in Hall. discriminate. }
    rewrite Hst. simpl. split; [reflexivity | exact Hw].
Qed.

(** The world install leaves behind, in its two outcomes. *)
Lemma install_world_stored (s : State) :
  forallb (fun p => http_or_https (url (request_of origin p))) FILES_TO_CACHE
  = true ->
  (forall p, In p FILES_TO_CACHE -> is_Some (shell_answer origin network p)) ->
  world (snd (install origin network s))
  = {| caches := storage_put_all CACHE_NAME
                   (map (shell_entry origin network) FILES_TO_CACHE)
                   (storage_open CACHE_NAME (caches (world s)));
       skipWaitingFlag := true;
       clientsClaimed := clientsClaimed (world s) |}.
Proof.
  intros Hsch Hall. unfold install.
  remember FILES_TO_CACHE as files eqn:Hfiles. clear Hfiles.
  unfold then_, catch_, caches_open, console_log, console_error.
  match goal with
  | |- context [cache_addAll origin network ?c files ?s1] =>
      destruct (addAll_stores c files s1 Hsch Hall) as [Hr Hw];
      destruct (cache_addAll origin network c files s1) as [[[]|e] s2]
  end; [|discriminate].
  cbn in Hw |- *. now rewrite Hw.
Qed.

Lemma install_world_rejected (s : State) :
  (forall c s1,
     is_rejected (fst (cache_addAll origin network c FILES_TO_CACHE s1)) = true
     /\ world (snd (cache_addAll origin network c FILES_TO_CACHE s1)) = world s1) ->
  world (snd (install origin network s))
  = {| caches := storage_open CACHE_NAME (caches (world s));
       skipWaitingFlag := skipWaitingFlag (world s);
       clientsClaimed := clientsClaimed (world s) |}.
Proof.
  intros Hrej. unfold install.
  remember FILES_TO_CACHE as files eqn:Hfiles. clear Hfiles.
  unfold then_, catch_, caches_open, console_log, console_error.
  match goal with
  | |- context [cache_addAll origin network ?c files ?s1] =>
      destruct (Hrej c s1) as [Hr Hw];
      destruct (cache_addAll origin network c files s1) as [[[]|e] s2]
  end; [discriminate|].
  cbn in Hw |- *. now rewrite Hw.
Qed.

Lemma install_world_refused (s : State) path :
  In path FILES_TO_CACHE ->
  shell_answer origin network path = None ->
  world (snd (install origin network s))
  = {| caches := storage_open CACHE_NAME (caches (world s));
       skipWaitingFlag := skipWaitingFlag (world s);
       clientsClaimed := clientsClaimed (world s) |}.
Proof.
  intros Hin Hbad. apply install_world_rejected.
  intros c s1. now apply (addAll_refuses c FILES_TO_CACHE s1 path).
Qed.

(** Either way the caches are the old ones, the current cache opened, and
    a (possibly empty) run of puts into it. *)
Lemma install_caches_shape (s : State) :
  exists l,
    caches (world (snd (install origin network s)))
    = storage_put_all CACHE_NAME l (storage_open CACHE_NAME (caches (world s)))
    /\ (forall req r, In (req, Some r) l -> cacheable r = true)
    /\ clientsClaimed (world (snd (install origin network s)))
       = clientsClaimed (world s).
Proof.
  destruct (forallb (fun p => http_or_https (url (request_of origin p)))
                    FILES_TO_CACHE) eqn:Hsch; cycle 1.
  { exists []. rewrite (install_world_rejected s).
    - cbn [caches clientsClaimed]. split; [reflexivity|].
      split; [intros ? ? [] | reflexivity].
    - intros c s1. now apply addAll_bad_scheme. }
  destruct (forallb (fun p => match shell_answer origin network p with
                              | Some _ => true | None => false end)
                    FILES_TO_CACHE) eqn:Hall.
  - rewrite forallb_forall in Hall.
    assert (Hsome : forall p, In p FILES_TO_CACHE ->
                      is_Some (shell_answer origin network p)).
    { intros p Hp. specialize (Hall p Hp).
      destruct (shell_answer origin network p); [eauto | discriminate]. }
    exists (map (shell_entry origin network) FILES_TO_CACHE).
    rewrite (install_world_stored s Hsch Hsome). cbn [caches clientsClaimed].
    split; [reflexivity|]. split; [|reflexivity].
    intros req r Hin. apply in_map_iff in Hin. destruct Hin as (p & Hp & Hin).
    destruct (Hsome p Hin) as [r' Hr'].
    rewrite (shell_answer_entry p r' Hr') in Hp. injection Hp as _ ->.
    exact (shell_answer_cacheable p r Hr').
  - assert (Hex : exists p, In p FILES_TO_CACHE
                            /\ shell_answer origin network p = None).
    { apply Bool.not_true_iff_false in Hall.
      destruct (existsb (fun p => match shell_answer origin network p with
                                  | Some _ => false | None => true end)
                        FILES_TO_CACHE) eqn:Hex.
      - apply existsb_exists in Hex. destruct Hex as (p & Hp & Hn).
        exists p. split; [exact Hp|].
        now destruct (shell_answer origin network p).
      - exfalso. apply Hall. apply forallb_forall. intros p Hp.
        destruct (shell_answer origin network p) eqn:Ha; [reflexivity|].
        assert (existsb (fun p => match shell_answer origin network p with
                                  | Some _ => false | None => true end)
                        FILES_TO_CACHE = true).
        { apply existsb_exists. exists p. split; [exact Hp | now rewrite Ha]. }
        congruence. }
    destruct Hex as (p & Hp & Hbad).
    exists []. rewrite (install_world_refused s p Hp Hbad).
    cbn [caches clientsClaimed]. split; [reflexivity|].
    split; [intros ? ? [] | reflexivity].
Qed.

End Shell.

Lemma request_of_url origin (p q : string) :
  url (request_of origin p) = url (request_of origin q) ->
  request_of origin p = request_of origin q.
Proof. unfold request_of. simpl. now intros ->. Qed.

Lemma answers_give_shell origin network (paths : list string) :
  (forall path, In path paths ->
     exists r, network (request_of origin path) = Fulfilled (Some r)
               /\ cacheable r = true) ->
  forall p, In p paths -> is_Some (shell_answer origin network p).
Proof.
  intros Hall p Hp. destruct (Hall p Hp) as (r & Hn & Hc).
  unfold shell_answer. rewrite Hn, Hc. eauto.
Qed.

(** X1. Whatever the network answers and whatever the caches hold, the
    promise the install listener hands to waitUntil is fulfilled: it never
    rejects. *)
Theorem install_promise_is_fulfilled origin network (s : State) :
  fst (install origin network s) = Fulfilled tt.
Proof. apply InstallFacts.install_never_rejects. Qed.

Lemma shell_schemes origin (paths : list string) :
  http_or_https origin = true ->
  forallb (fun p => http_or_https (url (request_of origin p))) paths = true.
Proof.
  intros Ho. apply forallb_forall. intros p _. simpl.
  now apply http_or_https_app.
Qed.

(** After an install, from an http(s) origin, that got a cacheable answer
    for every file, the current cache holds each file's answer under its
    URL. *)
Lemma install_holds_file origin network (s : State) path r :
  http_or_https origin = true ->
  strip_fragment origin = origin ->
  (forall p, In p FILES_TO_CACHE -> is_Some (shell_answer origin network p)) ->
  In path FILES_TO_CACHE ->
  network (request_of origin path) = Fulfilled (Some r) ->
  exists cache,
    storage_lookup CACHE_NAME (caches (world (snd (install origin network s))))
    = Some cache
    /\ cache !! (origin +:+ path) = Some r.
Proof.
  intros Ho Hfrag Hsome Hin Hnet.
  rewrite (install_world_stored origin network s (shell_schemes origin _ Ho) Hsome).
  cbn [caches].
  pose proof (FetchFacts.has_open CACHE_NAME (caches (world s))) as Hh.
  unfold storage_has in Hh.
  destruct (storage_lookup CACHE_NAME (storage_open CACHE_NAME (caches (world s))))
    as [c0|] eqn:Hc0; [|discriminate].
  apply (lookup_put_all CACHE_NAME (origin +:+ path) r _ _ c0 Hc0).
  - intros req a Hq Hurl. apply in_map_iff in Hq.
    destruct Hq as (p & Hp & Hpin). unfold shell_entry in Hp.
    injection Hp as <- <-.
    simpl in Hurl. rewrite (file_url_no_fragment origin p Hfrag Hpin) in Hurl.
    apply app_cancel in Hurl. subst p. now rewrite Hnet.
  - right. exists (request_of origin path). split.
    + apply in_map_iff. exists path. split; [|exact Hin].
      unfold shell_entry. now rewrite Hnet.
    + simpl. now apply file_url_no_fragment.
Qed.

(** X2. On an http or https origin, when every file of FILES_TO_CACHE is
    answered with a cacheable response (a 2xx other than 206, without
    'Vary: *'), install ends with skipWaiting called and with each file's
    response stored under its URL in the cache named CACHE_NAME. *)
Theorem install_caches_every_file origin network (s : State) :
  http_or_https origin = true ->
  strip_fragment origin = origin ->
  (forall path, In path FILES_TO_CACHE ->
     exists r, network (request_of origin path) = Fulfilled (Some r)
               /\ cacheable r = true) ->
  fst (install origin network s) = Fulfilled tt
  /\ skipWaitingFlag (world (snd (install origin network s))) = true
  /\ forall path r,
       In path FILES_TO_CACHE ->
       network (request_of origin path) = Fulfilled (Some r) ->
       exists cache,
         storage_lookup CACHE_NAME (caches (world (snd (install origin network s))))
         = Some cache
         /\ cache !! (origin +:+ path) = Some r.
Proof.
  intros Ho Hfrag Hall.
  pose proof (answers_give_shell origin network _ Hall) as Hsome.
  split; [apply InstallFacts.install_never_rejects|].
  split.
  - now rewrite (install_world_stored origin network s
                   (shell_schemes origin _ Ho) Hsome).
  - intros path r Hin Hnet. now apply install_holds_file.
Qed.

(** A 200 carrying 'Vary: *' is not cacheable: with such answers install
    stores nothing. *)
Example install_varying_stores_nothing :
  caches (world (snd (install Samples.origin0 Samples.network_varying
                        Samples.fresh)))
  = [(CACHE_NAME, ∅)]
  /\ skipWaitingFlag (world (snd (install Samples.origin0 Samples.network_varying
                                    Samples.fresh))) = false.
Proof. vm_compute. split; reflexivity. Qed.

(** X3. When one file of FILES_TO_CACHE gets no cacheable answer (the fetch
    rejects, or the response is not a 2xx other than 206), install stores
    nothing: the caches are the old ones with the current cache opened,
    every cache that existed holds what it held, skipWaiting is not called,
    and the promise is fulfilled all the same. *)
Theorem install_stores_nothing_without_every_file origin network (s : State)
    path :
  In path FILES_TO_CACHE ->
  (forall r, network (request_of origin path) = Fulfilled (Some r) ->
             cacheable r = false) ->
  fst (install origin network s) = Fulfilled tt
  /\ caches (world (snd (install origin network s)))
     = storage_open CACHE_NAME (caches (world s))
  /\ skipWaitingFlag (world (snd (install origin network s)))
     = skipWaitingFlag (world s)
  /\ forall name cache,
       storage_lookup name (caches (world s)) = Some cache ->
       storage_lookup name (caches (world (snd (install origin network s))))
       = Some cache.
Proof.
  intros Hin Hbad.
  assert (Hnone : shell_answer origin network path = None).
  { unfold shell_answer.
    destruct (network (request_of origin path)) as [[r|]|e]; try reflexivity.
    now rewrite (Hbad r eq_refl). }
  split; [apply InstallFacts.install_never_rejects|].
  rewrite (install_world_refused origin network s path Hin Hnone).
  cbn [caches skipWaitingFlag]. repeat split.
  intros name cache Hl. unfold storage_open.
  destruct (storage_has CACHE_NAME (caches (world s))); [exact Hl|].
  now rewrite lookup_snoc, Hl.
Qed.

Lemma install_lookup_other origin network (s : State) (name : string) :
  name <> CACHE_NAME ->
  storage_lookup name (caches (world (snd (install origin network s))))
  = storage_lookup name (caches (world s)).
Proof.
  intros Hne. destruct (install_caches_shape origin network s) as (l & Hc & _).
  rewrite Hc, lookup_put_all_other by congruence.
  apply lookup_open. congruence.
Qed.

(** X4. Install writes to the cache named CACHE_NAME only: every other name
    looks up to the same cache afterwards, and no cache that existed is gone. *)
Theorem install_keeps_other_caches origin network (s : State) (name : string) :
  (name <> CACHE_NAME ->
   storage_lookup name (caches (world (snd (install origin network s))))
   = storage_lookup name (caches (world s)))
  /\ (storage_has name (caches (world s)) = true ->
      storage_has name (caches (world (snd (install origin network s)))) = true).
Proof.
  split; [apply install_lookup_other|].
  destruct (install_caches_shape origin network s) as (l & Hc & _).
  rewrite Hc. intros Hh. rewrite has_put_all. now apply has_open_mono.
Qed.

Lemma install_caches_every_file_witness :
  exists cache,
    storage_lookup CACHE_NAME
      (caches (world (snd (install Samples.origin0 Samples.network_up Samples.fresh))))
    = Some cache
    /\ cache !! (Samples.origin0 +:+ "/index.html")
       = Some (Samples.page (Samples.origin0 +:+ "/index.html")).
Proof.
  apply (install_caches_every_file Samples.origin0 Samples.network_up Samples.fresh).
  - reflexivity.
  - reflexivity.
  - intros path _. eexists. split; reflexivity.
  - simpl. tauto.
  - reflexivity.
Defined.

Lemma install_stores_nothing_without_every_file_witness :
  In "/manifest.json" FILES_TO_CACHE
  /\ caches (world (snd (install Samples.origin0 Samples.network_404 Samples.fresh)))
     = storage_open CACHE_NAME (caches (world Samples.fresh)).
Proof.
  split; [simpl; tauto|].
  apply (install_stores_nothing_without_every_file
           Samples.origin0 Samples.network_404 Samples.fresh "/manifest.json").
  - simpl. tauto.
  - intros r [= <-]. reflexivity.
Defined.

Lemma install_keeps_other_caches_witness :
  "other-app-v3" <> CACHE_NAME
  /\ storage_lookup "other-app-v3"
       (caches (world (snd (install Samples.origin0 Samples.network_up
                              Samples.upgraded))))
     = storage_lookup "other-app-v3" (caches (world Samples.upgraded)).
Proof.
  split; [discriminate|].
  apply (install_keeps_other_caches Samples.origin0 Samples.network_up
           Samples.upgraded "other-app-v3").
  discriminate.
Defined.

End InstallMore.

(* ===================================================================== *)
(** ** activate: repeated, and what it leaves alone                       *)
(* ===================================================================== *)

Module ActivateMore.
Import SW ActivateFacts.

Lemma filter_twice {A} (f : A -> bool) (l : list A) :
  List.filter f (List.filter f l) = List.filter f l.
Proof.
  induction l as [|a l IH]; simpl; [reflexivity|].
  destruct (f a) eqn:E; simpl; [rewrite E|]; congruence.
Qed.

Lemma activate_rest (s : State) :
  clientsClaimed (world (snd (activate s))) = true
  /\ skipWaitingFlag (world (snd (activate s))) = skipWaitingFlag (world s)
  /\ fetched (snd (activate s)) = fetched s.
Proof.
  unfold activate, then_, console_log, caches_keys. simpl.
  match goal with
  | |- context [Promise.all (map delete_old ?ns) ?s1] =>
      pose proof (delete_old_all ns s1) as H; simpl in H;
      destruct (Promise.all (map delete_old ns) s1) as [[l|e] s2]
  end; simpl in *; destruct H as (H0 & _ & H2 & _ & H4); try discriminate.
  repeat split; assumption.
Qed.

(** X5. Activating a second time changes no cache: the first activation has
    already removed every cache the filter selects. *)
Theorem activate_twice (s : State) :
  caches (world (snd (activate (snd (activate s)))))
  = caches (world (snd (activate s))).
Proof.
  destruct (activate_caches (snd (activate s))) as [_ H2].
  destruct (activate_caches s) as [_ H1].
  rewrite H2, H1. apply filter_twice.
Qed.

(** X6. Whatever caches exist, activate ends with clients.claim() called,
    leaves the skipWaiting flag as it was and makes no network request. *)
Theorem activate_claims_clients (s : State) :
  clientsClaimed (world (snd (activate s))) = true
  /\ skipWaitingFlag (world (snd (activate s))) = skipWaitingFlag (world s)
  /\ fetched (snd (activate s)) = fetched s.
Proof. apply activate_rest. Qed.

End ActivateMore.

(* ===================================================================== *)
(** ** fetch: every request, every state                                  *)
(* ===================================================================== *)

Module FetchMore.
Import SW StorageMore.

(** What the promise handed to respondWith does in every case: it is
    fulfilled; the caches are as before or hold one more 200/basic response
    of the network under the request's URL; the network is asked at most
    once, for the request. *)
Lemma respond_shape origin network (req : Request) (s : State) :
  method req = "GET" ->
  is_rejected (fst (respond origin network req s)) = false
  /\ (caches (world (snd (respond origin network req s))) = caches (world s)
      \/ exists resp,
           network req = Fulfilled (Some resp)
           /\ status resp = 200 /\ type resp = "basic"
           /\ storage_match (url req) (caches (world s)) = None
           /\ caches (world (snd (respond origin network req s)))
              = if put_accepted req resp
                then storage_put CACHE_NAME (url req) (clone resp)
                       (storage_open CACHE_NAME (caches (world s)))
                else storage_open CACHE_NAME (caches (world s)))
  /\ skipWaitingFlag (world (snd (respond origin network req s)))
     = skipWaitingFlag (world s)
  /\ clientsClaimed (world (snd (respond origin network req s)))
     = clientsClaimed (world s)
  /\ (fetched (snd (respond origin network req s)) = fetched s
      \/ fetched (snd (respond origin network req s))
         = (fetched s ++ [req])%list).
Proof.
  intros Hm. unfold respond, then_, catch_, caches_match, fetch. simpl.
  rewrite Hm. simpl.
  destruct (storage_match (url req) (caches (world s))) as [cached|] eqn:Hc;
    simpl; [tauto|].
  destruct (network req) as [[resp|]|e] eqn:Hn; simpl.
  - destruct (Nat.eqb (status resp) 200) eqn:Hs; simpl; [|tauto].
    destruct (String.eqb (type resp) "basic") eqn:Ht; simpl; [|tauto].
    apply Nat.eqb_eq in Hs. apply String.eqb_eq in Ht.
    unfold detached, then_, caches_open, cache_put.
    rewrite FetchFacts.put_accepted_clone.
    destruct (put_accepted req resp) eqn:Hacc; simpl;
      (repeat split; try tauto;
       right; exists resp; rewrite Hacc; repeat split; assumption).
  - tauto.
  - destruct (String.eqb (mode req) "navigate"); simpl; tauto.
Qed.

Lemma on_fetch_cases origin network (req : Request) (s : State) :
  on_fetch origin network req s = (None, s)
  \/ (method req = "GET"
      /\ on_fetch origin network req s
         = (Some (fst (respond origin network req s)),
            snd (respond origin network req s))).
Proof.
  unfold on_fetch.
  destruct (String.eqb (method req) "GET") eqn:Hm; simpl; [|now left].
  apply String.eqb_eq in Hm.
  destruct (URL_protocol (url req)) as [p|]; [|now left].
  destruct (String.prefix "http" p); simpl; [|now left].
  right. split; [exact Hm|]. now destruct (respond origin network req s).
Qed.

(** X7. The promise the fetch listener hands to respondWith never rejects,
    whatever the request, the caches and the network: a failing fetch ends
    in the catch handler, which answers. *)
Theorem on_fetch_never_rejects origin network (req : Request) (s : State)
    (reason : string) :
  fst (on_fetch origin network req s) <> Some (Rejected reason).
Proof.
  destruct (on_fetch_cases origin network req s) as [-> | (Hm & ->)];
    [discriminate|].
  destruct (respond_shape origin network req s Hm) as (Hr & _).
  simpl. destruct (fst (respond origin network req s)); [discriminate|].
  discriminate.
Qed.

Lemma on_fetch_lookup_other origin network (req : Request) (s : State)
    (name : string) :
  name <> CACHE_NAME ->
  storage_lookup name (caches (world (snd (on_fetch origin network req s))))
  = storage_lookup name (caches (world s)).
Proof.
  intros Hne.
  destruct (on_fetch_cases origin network req s) as [-> | (Hm & ->)];
    [reflexivity|].
  destruct (respond_shape origin network req s Hm) as (_ & Hc & _).
  cbn [snd]. destruct Hc as [-> | (resp & _ & _ & _ & _ & ->)]; [reflexivity|].
  destruct (put_accepted req resp).
  - rewrite lookup_put_other by congruence. apply lookup_open. congruence.
  - apply lookup_open. congruence.
Qed.

(** X8. The fetch listener writes to the cache named CACHE_NAME only and
    deletes nothing: every other name looks up to the same cache afterwards,
    no cache that existed is gone, the skipWaiting and claim flags are as
    before, and the network is asked at most once, for the request itself. *)
Theorem on_fetch_keeps_other_caches origin network (req : Request) (s : State)
    (name : string) :
  (name <> CACHE_NAME ->
   storage_lookup name (caches (world (snd (on_fetch origin network req s))))
   = storage_lookup name (caches (world s)))
  /\ (storage_has name (caches (world s)) = true ->
      storage_has name (caches (world (snd (on_fetch origin network req s))))
      = true)
  /\ skipWaitingFlag (world (snd (on_fetch origin network req s)))
     = skipWaitingFlag (world s)
  /\ clientsClaimed (world (snd (on_fetch origin network req s)))
     = clientsClaimed (world s)
  /\ (fetched (snd (on_fetch origin network req s)) = fetched s
      \/ fetched (snd (on_fetch origin network req s))
         = (fetched s ++ [req])%list).
Proof.
  split; [apply on_fetch_lookup_other|].
  destruct (on_fetch_cases origin network req s) as [-> | (Hm & ->)];
    [simpl; tauto|].
  destruct (respond_shape origin network req s Hm)
    as (_ & Hc & Hsk & Hcl & Hf).
  cbn [snd]. repeat split; try assumption.
  intros Hh.
  destruct Hc as [-> | (resp & _ & _ & _ & _ & ->)]; [exact Hh|].
  destruct (put_accepted req resp).
  - rewrite has_put. now apply has_open_mono.
  - now apply has_open_mono.
Qed.

Lemma on_fetch_keeps_other_caches_witness :
  "other-app-v3" <> CACHE_NAME
  /\ storage_lookup "other-app-v3"
       (caches (world (snd (on_fetch Samples.origin0 Samples.network_up
                              Samples.script_request Samples.upgraded))))
     = storage_lookup "other-app-v3" (caches (world Samples.upgraded)).
Proof.
  split; [discriminate|].
  apply (on_fetch_keeps_other_caches Samples.origin0 Samples.network_up
           Samples.script_request Samples.upgraded "other-app-v3").
  discriminate.
Defined.

(** X9. The fetch listener leaves a request to the browser exactly when its
    method is not GET or the protocol of its URL does not start with 'http'
    (or the URL has no scheme at all); for such a request it changes
    nothing, not even the console. *)
Theorem on_fetch_passes_iff origin network (req : Request) (s : State) :
  (fst (on_fetch origin network req s) = None
   <-> (method req <> "GET"
        \/ forall protocol, URL_protocol (url req) = Some protocol ->
                            String.prefix "http" protocol = false))
  /\ (fst (on_fetch origin network req s) = None ->
      snd (on_fetch origin network req s) = s).
Proof.
  unfold on_fetch.
  destruct (String.eqb (method req) "GET") eqn:Hm; simpl.
  - apply String.eqb_eq in Hm.
    destruct (URL_protocol (url req)) as [p|] eqn:Hu.
    + destruct (String.prefix "http" p) eqn:Hp; simpl.
      * destruct (respond origin network req s) as [r s']. simpl.
        split; [|discriminate]. split; [discriminate|].
        intros [Hne | Hall]; [contradiction|].
        specialize (Hall p eq_refl). congruence.
      * split; [|reflexivity]. split; [|reflexivity].
        intros _. right. intros q [= <-]. exact Hp.
    + split; [|reflexivity]. split; [|reflexivity].
      intros _. right. intros q Hq. discriminate.
  - apply String.eqb_neq in Hm.
    split; [|reflexivity]. split; [|reflexivity]. intros _. now left.
Qed.

(** X10. The fetch listener changes the caches only for a GET request that
    missed the cache and that the network answered with status 200 and type
    'basic'. The cache named CACHE_NAME is then opened, and when cache.put
    accepts the pair (an http or https URL, no 'Vary: *') the response's
    clone is put under the request's URL; when it does not, opening the
    cache is all that happens. *)
Theorem on_fetch_writes_only_200_basic origin network (req : Request)
    (s : State) :
  caches (world (snd (on_fetch origin network req s))) <> caches (world s) ->
  exists resp,
    method req = "GET"
    /\ storage_match (url req) (caches (world s)) = None
    /\ network req = Fulfilled (Some resp)
    /\ status resp = 200 /\ type resp = "basic"
    /\ caches (world (snd (on_fetch origin network req s)))
       = if String.eqb (method req) "GET" && http_or_https (url req)
            && negb (Nat.eqb (status resp) 206) && negb (vary_star resp)
         then storage_put CACHE_NAME (url req) (clone resp)
                (storage_open CACHE_NAME (caches (world s)))
         else storage_open CACHE_NAME (caches (world s)).
Proof.
  destruct (on_fetch_cases origin network req s) as [-> | (Hm & ->)];
    [simpl; congruence|].
  destruct (respond_shape origin network req s Hm) as (_ & Hc & _).
  cbn [snd]. intros Hchg.
  destruct Hc as [Hsame | (resp & Hn & Hs & Ht & Hmiss & Hput)];
    [contradiction|].
  exists resp. repeat split; assumption.
Qed.

Section Witnesses.
Import Samples.

Lemma on_fetch_writes_only_200_basic_witness :
  caches (world (snd (on_fetch origin0 network_up script_request fresh)))
  <> caches (world fresh)
  /\ exists resp,
       network_up script_request = Fulfilled (Some resp)
       /\ status resp = 200 /\ type resp = "basic"
       /\ caches (world (snd (on_fetch origin0 network_up script_request fresh)))
          = storage_put CACHE_NAME (url script_request) (clone resp)
              (storage_open CACHE_NAME (caches (world fresh))).
Proof.
  assert (Hchg : caches (world (snd (on_fetch origin0 network_up
                                       script_request fresh)))
                 <> caches (world fresh)).
  { intros Hsame. apply (f_equal (@List.length _)) in Hsame.
    revert Hsame. vm_compute. discriminate. }
  split; [exact Hchg|].
  destruct (on_fetch_writes_only_200_basic origin0 network_up
              script_request fresh Hchg)
    as (resp & _ & _ & Hn & Hs & Ht & Hput).
  exists resp. repeat split; try assumption.
  rewrite Hput. injection Hn as <-. reflexivity.
Defined.

(** The same with an answer that carries 'Vary: *': the cache is opened,
    nothing is put. *)
Example on_fetch_varying_opens_only :
  caches (world (snd (on_fetch origin0 network_varying script_request fresh)))
  = storage_open CACHE_NAME (caches (world fresh)).
Proof. vm_compute. reflexivity. Qed.
End Witnesses.

End FetchMore.

(* ===================================================================== *)
(** ** Any run of events                                                  *)
(* ===================================================================== *)

Module LifecycleFacts.
Import SW Lifecycle StorageFacts StorageMore.

Lemma on_message_caches (data : Value) (s : State) :
  caches (world (snd (on_message data s)))
  = if strict_eq_string data "clearCache"
    then storage_delete CACHE_NAME (caches (world s))
    else caches (world s).
Proof.
  unfold on_message, then_, console_log, detached.
  destruct (strict_eq_string data "skipWaiting");
    destruct (strict_eq_string data "clearCache"); reflexivity.
Qed.

Lemma current_has_prefix (name : string) :
  String.prefix "delayed-mirror-" name = false -> name <> CACHE_NAME.
Proof. intros Hp ->. discriminate. Qed.

Lemma dispatch_keeps_foreign origin step (s : State) (name : string) :
  String.prefix "delayed-mirror-" name = false ->
  storage_lookup name (caches (world (dispatch origin step s)))
  = storage_lookup name (caches (world s)).
Proof.
  intros Hp. pose proof (current_has_prefix name Hp) as Hne.
  destruct step as [network [| |request|data|tag|]]; unfold dispatch; cbn [fst snd].
  - now apply InstallMore.install_lookup_other.
  - destruct (ActivateFacts.activate_caches s) as [_ Hc].
    rewrite Hc, (lookup_filter (fun n => negb (stale n))).
    now rewrite (stale_prefix name Hp).
  - now apply FetchMore.on_fetch_lookup_other.
  - rewrite on_message_caches.
    destruct (strict_eq_string data "clearCache"); [|reflexivity].
    rewrite lookup_delete. apply String.eqb_neq in Hne. now rewrite Hne.
  - reflexivity.
  - reflexivity.
Qed.

(** X11. Whatever events reach the worker, in whatever order and with
    whatever answers from the network, a cache whose name does not start
    with 'delayed-mirror-' is never created, changed or deleted: its name
    looks up to the same cache after the run as before. *)
Theorem run_keeps_foreign_caches origin steps (s : State) (name : string) :
  String.prefix "delayed-mirror-" name = false ->
  storage_lookup name (caches (world (run origin steps s)))
  = storage_lookup name (caches (world s)).
Proof.
  intros Hp. revert s. unfold run.
  induction steps as [|step steps IH]; intros s; [reflexivity|].
  cbn [fold_left]. rewrite IH. now apply dispatch_keeps_foreign.
Qed.

Lemma ok_of_cacheable (r : Response) : cacheable r = true -> ok r = true.
Proof.
  unfold cacheable. intros H.
  apply andb_prop in H as [H _]. now apply andb_prop in H as [H _].
Qed.

Lemma ok_of_200 (r : Response) : status r = 200 -> ok (clone r) = true.
Proof. unfold ok, clone. simpl. now intros ->. Qed.

Lemma dispatch_adds_ok origin step (s : State) n c u r :
  In (n, c) (caches (world (dispatch origin step s))) ->
  c !! u = Some r ->
  ok r = true
  \/ exists c0, In (n, c0) (caches (world s)) /\ c0 !! u = Some r.
Proof.
  intros Hin Hu.
  destruct step as [network [| |request|data|tag|]]; unfold dispatch in Hin;
    cbn [fst snd] in Hin.
  - destruct (InstallMore.install_caches_shape origin network s)
      as (l & Hc & Hl & _).
    rewrite Hc in Hin.
    destruct (in_put_all _ _ _ _ _ Hin) as (c1 & Hc1 & Hall).
    destruct (Hall u r Hu) as [Hold | (_ & req & Hreq & _)].
    + destruct (in_open _ _ _ _ Hc1) as [Hst | [_ ->]].
      * right. eauto.
      * rewrite lookup_empty in Hold. discriminate.
    + left. apply ok_of_cacheable. eapply Hl. exact Hreq.
  - destruct (ActivateFacts.activate_caches s) as [_ Hc].
    rewrite Hc in Hin. apply filter_In in Hin. right. exists c. tauto.
  - destruct (FetchMore.on_fetch_cases origin network request s)
      as [Heq | (Hm & Heq)]; rewrite Heq in Hin; cbn [snd] in Hin.
    + right. eauto.
    + destruct (FetchMore.respond_shape origin network request s Hm)
        as (_ & Hc & _).
      destruct Hc as [Hc | (resp & _ & Hs & _ & _ & Hc)]; rewrite Hc in Hin.
      * right. eauto.
      * assert (Hopen : forall c1, In (n, c1) (storage_open CACHE_NAME (caches (world s))) ->
                          c1 !! u = Some r ->
                          exists c0, In (n, c0) (caches (world s)) /\ c0 !! u = Some r).
        { intros c1 Hc1 Hold.
          destruct (in_open _ _ _ _ Hc1) as [Hst | [_ ->]]; [eauto|].
          rewrite lookup_empty in Hold. discriminate. }
        destruct (put_accepted request resp); [|right; now apply (Hopen c)].
        destruct (in_put _ _ _ _ _ _ Hin) as (c1 & Hc1 & Hor).
        assert (Hold : ok r = true \/ c1 !! u = Some r).
        { destruct Hor as [-> | (_ & ->)]; [now right|].
          destruct (decide (strip_fragment (url request) = u)) as [<- | Hne].
          - rewrite lookup_insert_eq in Hu. injection Hu as <-.
            left. now apply ok_of_200.
          - rewrite lookup_insert_ne in Hu by exact Hne. now right. }
        destruct Hold as [Hok | Hold]; [now left|].
        right. now apply (Hopen c1).
  - rewrite on_message_caches in Hin.
    destruct (strict_eq_string data "clearCache").
    + unfold storage_delete in Hin. apply filter_In in Hin.
      right. exists c. tauto.
    + right. eauto.
  - right. eauto.
  - right. eauto.
Qed.

(** X12. Whatever events reach the worker, every response found in a cache
    after the run either was in the cache of that name under that URL
    before the run, or has a status from 200 to 299: the worker never adds
    an error response to a cache. *)
Theorem run_adds_only_ok_responses origin steps (s : State) n c u r :
  In (n, c) (caches (world (run origin steps s))) ->
  c !! u = Some r ->
  ok r = true
  \/ exists c0, In (n, c0) (caches (world s)) /\ c0 !! u = Some r.
Proof.
  revert s c. unfold run.
  induction steps as [|step steps IH]; intros s c Hin Hu.
  - right. eauto.
  - cbn [fold_left] in Hin.
    destruct (IH _ _ Hin Hu) as [Hok | (c1 & Hc1 & Hu1)]; [now left|].
    exact (dispatch_adds_ok origin step s n c1 u r Hc1 Hu1).
Qed.

Section Witnesses.
Import Samples.

Lemma run_keeps_foreign_caches_witness :
  String.prefix "delayed-mirror-" "other-app-v3" = false
  /\ storage_lookup "other-app-v3"
       (caches (world (run origin0
                         [ (network_up, Install); (network_up, Activate);
                           (network_down, Fetch script_request);
                           (network_up, Message (VString "clearCache"));
                           (network_up, Sync "sync-recordings");
                           (network_up, Push) ]
                         upgraded)))
     = storage_lookup "other-app-v3" (caches (world upgraded)).
Proof.
  split; [reflexivity|].
  apply (run_keeps_foreign_caches origin0 _ upgraded "other-app-v3").
  reflexivity.
Defined.

Lemma run_adds_only_ok_responses_witness :
  In (CACHE_NAME,
      <[strip_fragment (url script_request) := clone (page (url script_request))]>
        (∅ : Cache))
     (caches (world (run origin0
                       [(network_up, Fetch script_request);
                        (network_down, Activate)]
                       fresh)))
  /\ (ok (clone (page (url script_request))) = true
      \/ exists c0, In (CACHE_NAME, c0) (caches (world fresh))
                    /\ c0 !! strip_fragment (url script_request)
                       = Some (clone (page (url script_request)))).
Proof.
  assert (Hin : In (CACHE_NAME,
                    <[strip_fragment (url script_request)
                      := clone (page (url script_request))]> (∅ : Cache))
                   (caches (world (run origin0
                                     [(network_up, Fetch script_request);
                                      (network_down, Activate)]
                                     fresh)))).
  { left. reflexivity. }
  split; [exact Hin|].
  apply (run_adds_only_ok_responses origin0 _ fresh CACHE_NAME _
           (strip_fragment (url script_request))
           (clone (page (url script_request))) Hin).
  apply lookup_insert_eq.
Defined.
End Witnesses.

End LifecycleFacts.


(* ===================================================================== *)
(** ** Offline, after install and activation                              *)
(* ===================================================================== *)

Module OfflineFacts.
Import SW Lifecycle StorageFacts StorageMore.

(** A miss whose fetch rejects: the catch handler's answer. *)
Lemma respond_failure origin network (req : Request) (s : State) reason :
  method req = "GET" ->
  storage_match (url req) (caches (world s)) = None ->
  network req = Rejected reason ->
  fst (respond origin network req s)
  = Fulfilled (if String.eqb (mode req) "navigate"
               then storage_match (origin +:+ "/index.html") (caches (world s))
               else Some {| status := 503; statusText := "Service Unavailable";
                            type := "default"; body := "Offline";
                            vary := [] |}).
Proof.
  intros Hm Hc Hn. unfold respond, then_, catch_, caches_match, fetch.
  rewrite Hm. simpl. rewrite Hc. simpl. rewrite Hn. simpl.
  destruct (String.eqb (mode req) "navigate"); reflexivity.
Qed.

Lemma plain_answers_give_shell origin network (paths : list string) :
  (forall p, In p paths ->
     exists a, network (request_of origin p) = Fulfilled (Some a)
               /\ cacheable a = true /\ vary a = []) ->
  forall p, In p paths -> is_Some (shell_answer origin network p).
Proof.
  intros Hall p Hp. destruct (Hall p Hp) as (r & Hn & Hc & _).
  unfold shell_answer. rewrite Hn, Hc. eauto.
Qed.

(** Once installed and activated, the caches answer for every file of the
    app shell; with the file's own response, when no cache held the URL
    before. *)
Lemma shell_cached origin network (s : State) path r :
  http_or_https origin = true ->
  strip_fragment origin = origin ->
  (forall p, In p FILES_TO_CACHE -> is_Some (shell_answer origin network p)) ->
  In path FILES_TO_CACHE ->
  network (request_of origin path) = Fulfilled (Some r) ->
  exists r',
    storage_match (origin +:+ path) (caches (world (installed origin network s)))
    = Some r'
    /\ (storage_match (origin +:+ path) (caches (world s)) = None -> r' = r).
Proof.
  intros Ho Hfrag Hsome Hin Hnet. unfold installed.
  pose proof (file_url_no_fragment origin path Hfrag Hin) as Hkey.
  destruct (InstallMore.install_holds_file origin network s path r
              Ho Hfrag Hsome Hin Hnet)
    as (cache & Hl & Hcache).
  destruct (ActivateFacts.activate_caches (snd (install origin network s)))
    as [_ Hact].
  assert (Hl2 : storage_lookup CACHE_NAME
                  (caches (world (snd (activate (snd (install origin network s))))))
                = Some cache).
  { rewrite Hact, (lookup_filter (fun n => negb (stale n))).
    rewrite stale_current. exact Hl. }
  rewrite <- Hkey in Hcache.
  destruct (in_match _ _ _ _ _ (lookup_in _ _ _ Hl2) Hcache) as [r' Hr'].
  exists r'. split; [exact Hr'|].
  intros Hfree.
  destruct (match_in _ _ _ Hr') as (n & c & Hn & Hc).
  rewrite Hact in Hn. apply filter_In in Hn. destruct Hn as [Hn _].
  rewrite (InstallMore.install_world_stored origin network s
             (InstallMore.shell_schemes origin _ Ho) Hsome) in Hn.
  cbn [caches] in Hn.
  destruct (in_put_all _ _ _ _ _ Hn) as (c1 & Hc1 & Hall).
  destruct (Hall _ _ Hc) as [Hold | (_ & req & Hreq & Hurl)].
  - destruct (in_open _ _ _ _ Hc1) as [Hst | [_ ->]].
    + rewrite (match_none _ _ Hfree n c1 Hst) in Hold. discriminate.
    + rewrite lookup_empty in Hold. discriminate.
  - apply in_map_iff in Hreq. destruct Hreq as (p & Hp & Hpin).
    unfold shell_entry in Hp. injection Hp as <- Hans.
    simpl in Hurl.
    rewrite (file_url_no_fragment origin p Hfrag Hpin), Hkey in Hurl.
    apply app_cancel in Hurl. subst p.
    rewrite Hnet in Hans. congruence.
Qed.

(** X13. Once the worker, on an http or https origin, has installed with a
    cacheable answer without Vary header for every file of FILES_TO_CACHE
    and has activated, a GET request for any of those files is answered
    from the caches whatever the network does then, and without asking it;
    the answer is the response install fetched for the file when no cache
    held the URL before. *)
Theorem shell_served_offline origin network network' (s : State)
    path r (req : Request) :
  http_or_https origin = true ->
  strip_fragment origin = origin ->
  (forall p, In p FILES_TO_CACHE ->
     exists a, network (request_of origin p) = Fulfilled (Some a)
               /\ cacheable a = true /\ vary a = []) ->
  In path FILES_TO_CACHE ->
  network (request_of origin path) = Fulfilled (Some r) ->
  method req = "GET" ->
  url req = origin +:+ path ->
  exists r',
    fst (on_fetch origin network' req (installed origin network s))
    = Some (Fulfilled (Some r'))
    /\ fetched (snd (on_fetch origin network' req (installed origin network s)))
       = fetched (installed origin network s)
    /\ (storage_match (origin +:+ path) (caches (world s)) = None -> r' = r).
Proof.
  intros Ho Hfrag Hall Hin Hnet Hm Hurl.
  pose proof (plain_answers_give_shell origin network _ Hall) as Hsome.
  destruct (shell_cached origin network s path r Ho Hfrag Hsome Hin Hnet)
    as (r' & Hr' & Hexact).
  exists r'.
  destruct (http_or_https_prefix _ (http_or_https_app origin path Ho))
    as (protocol & Hp & _ & Hhttp).
  rewrite <- Hurl in Hp, Hr'.
  rewrite (FetchFacts.on_fetch_handled origin network' req _ protocol Hm Hp Hhttp).
  rewrite (FetchFacts.respond_hit origin network' req _ r' Hm Hr').
  repeat split. exact Hexact.
Qed.

(** X14. Once the worker, on an http or https origin, has installed with a
    cacheable answer without Vary header for every file of FILES_TO_CACHE
    and has activated, a navigation to a page that is not cached, made
    while the network fails, is answered with a cached '/index.html': the
    one install fetched, when no cache held that URL before. *)
Theorem navigation_served_offline origin network network' (s : State)
    doc (req : Request) protocol reason :
  http_or_https origin = true ->
  strip_fragment origin = origin ->
  (forall p, In p FILES_TO_CACHE ->
     exists a, network (request_of origin p) = Fulfilled (Some a)
               /\ cacheable a = true /\ vary a = []) ->
  network (request_of origin "/index.html") = Fulfilled (Some doc) ->
  method req = "GET" ->
  URL_protocol (url req) = Some protocol ->
  String.prefix "http" protocol = true ->
  mode req = "navigate" ->
  storage_match (url req) (caches (world (installed origin network s))) = None ->
  network' req = Rejected reason ->
  exists doc',
    fst (on_fetch origin network' req (installed origin network s))
    = Some (Fulfilled (Some doc'))
    /\ (storage_match (origin +:+ "/index.html") (caches (world s)) = None ->
        doc' = doc).
Proof.
  intros Ho Hfrag Hall Hdoc Hm Hp Hhttp Hnav Hmiss Hrej.
  pose proof (plain_answers_give_shell origin network _ Hall) as Hsome.
  assert (Hin : In "/index.html" FILES_TO_CACHE) by (simpl; tauto).
  destruct (shell_cached origin network s "/index.html" doc Ho Hfrag Hsome Hin Hdoc)
    as (doc' & Hdoc' & Hexact).
  exists doc'. split; [|exact Hexact].
  rewrite (FetchFacts.on_fetch_handled origin network' req _ protocol Hm Hp Hhttp).
  cbn [fst].
  rewrite (respond_failure origin network' req _ reason Hm Hmiss Hrej).
  rewrite Hnav. cbn. now rewrite Hdoc'.
Qed.

Section Witnesses.
Import Samples.

Lemma shell_served_offline_witness :
  exists r',
    fst (on_fetch origin0 network_down index_request
           (installed origin0 network_up fresh))
    = Some (Fulfilled (Some r'))
    /\ fetched (snd (on_fetch origin0 network_down index_request
                       (installed origin0 network_up fresh)))
       = fetched (installed origin0 network_up fresh)
    /\ (storage_match (origin0 +:+ "/index.html") (caches (world fresh)) = None ->
        r' = page (origin0 +:+ "/index.html")).
Proof.
  apply (shell_served_offline origin0 network_up network_down fresh
           "/index.html" (page (origin0 +:+ "/index.html")) index_request).
  - reflexivity.
  - reflexivity.
  - intros p _. eexists. repeat split; reflexivity.
  - simpl. tauto.
  - reflexivity.
  - reflexivity.
  - reflexivity.
Defined.

Lemma navigation_served_offline_witness :
  exists doc',
    fst (on_fetch origin0 network_down lesson_request
           (installed origin0 network_up fresh))
    = Some (Fulfilled (Some doc'))
    /\ (storage_match (origin0 +:+ "/index.html") (caches (world fresh)) = None ->
        doc' = page (origin0 +:+ "/index.html")).
Proof.
  apply (navigation_served_offline origin0 network_up network_down fresh
           (page (origin0 +:+ "/index.html")) lesson_request "https:"
           "TypeError: Failed to fetch").
  - reflexivity.
  - reflexivity.
  - intros p _. eexists. repeat split; reflexivity.
  - reflexivity.
  - reflexivity.
  - reflexivity.
  - reflexivity.
  - reflexivity.
  - vm_compute. reflexivity.
  - reflexivity.
Defined.
End Witnesses.

End OfflineFacts.
